(** * VibeChat backend: a shallow embedding of [main.py]

    The development follows the layout of the Python module:
    helpers ([oid_str], [serialize]), request models ([CreateUser],
    [CreateChat], [CreateMessage]), and the six REST handlers.  Documents
    are Python dicts, embedded as insertion-ordered association lists; the
    document store is a record of three collections; handlers run in a
    state-and-exception monad over the store. *)

From Stdlib Require Import List String Ascii ZArith Bool Lia Arith.
From Stdlib Require Import Sorting.Sorted Sorting.Permutation Eqdep_dec.
Import ListNotations.
Local Open Scope string_scope.

Set Implicit Arguments.
Set Warnings "-register-all".

(* ================================================================= *)
(** ** Native identifiers ([bson.ObjectId]) *)

Module Oid.

(** An ObjectId is twelve bytes; its canonical string form is the 24
    lower-case hexadecimal digits of these bytes.  The embedding keeps an
    identifier as that canonical string together with the evidence that
    it is one, so every inhabitant is a valid identifier. *)

Definition is_lower_hex (c : ascii) : bool :=
  let n := nat_of_ascii c in
  (((48 <=? n) && (n <=? 57)) || ((97 <=? n) && (n <=? 102)))%nat.

Fixpoint all_chars (p : ascii -> bool) (s : string) : bool :=
  match s with
  | EmptyString => true
  | String c r => p c && all_chars p r
  end.

Definition is_oid_hex (s : string) : bool :=
  (String.length s =? 24)%nat && all_chars is_lower_hex s.

(** ASCII lower-casing: only 'A'..'Z' move. *)
Definition lower_ascii (c : ascii) : ascii :=
  let n := nat_of_ascii c in
  if ((65 <=? n) && (n <=? 90))%nat then ascii_of_nat (n + 32) else c.

Fixpoint lower (s : string) : string :=
  match s with
  | EmptyString => EmptyString
  | String c r => String (lower_ascii c) (lower r)
  end.

Definition t : Type := { h : string | is_oid_hex h = true }.

(** [str(oid)] *)
Definition str (o : t) : string := proj1_sig o.

Definition eqb (a b : t) : bool := String.eqb (str a) (str b).

(** The twelve-byte identifier a string of 24 hexadecimal digits (either
    case) spells; [None] for every other string. *)
Definition parse (s : string) : option t :=
  match bool_dec (is_oid_hex (lower s)) true with
  | left pf => Some (exist _ (lower s) pf)
  | right _ => None
  end.

(** ASCII whitespace, which [bytes.fromhex] skips between bytes. *)
Definition is_space (c : ascii) : bool :=
  let n := nat_of_ascii c in
  ((n =? 32) || ((9 <=? n) && (n <=? 13)))%nat.

(** A hexadecimal digit of either case. *)
Definition is_hex (c : ascii) : bool := is_lower_hex (lower_ascii c).

(** [bytes.fromhex(s)], the bytes read given by their lower-case
    hexadecimal digits: two digits per byte, whitespace skipped before a
    byte and at the end, [ValueError] ([None] here) on anything else. *)
Fixpoint fromhex (s : string) : option string :=
  match s with
  | EmptyString => Some EmptyString
  | String c r =>
      if is_space c then fromhex r
      else
        match r with
        | String d r' =>
            if is_hex c && is_hex d
            then option_map
                   (fun h => String (lower_ascii c) (String (lower_ascii d) h))
                   (fromhex r')
            else None
        | EmptyString => None
        end
  end.

End Oid.

Definition ObjectId : Type := Oid.t.

(* ================================================================= *)
(** ** Values and documents *)

(** The Python/BSON values that occur in request bodies and stored
    documents.  [VTime] is a [datetime], as a count of milliseconds. *)
Inductive value : Type :=
| VNone
| VBool (b : bool)
| VInt (n : Z)
| VStr (s : string)
| VOid (o : ObjectId)
| VTime (t : Z)
| VList (l : list value).

(** A Python [dict] with string keys: association list in insertion order,
    keys pairwise distinct ([dict_wf]). *)
Definition dict : Type := list (string * value).

Definition keys (d : dict) : list string := map fst d.

Definition dict_wf (d : dict) : Prop := NoDup (keys d).

(** [d.get(k)] / [k in d] *)
Fixpoint dict_get (k : string) (d : dict) : option value :=
  match d with
  | [] => None
  | (k', v) :: r => if String.eqb k k' then Some v else dict_get k r
  end.

(** [d[k] = v]: an existing key keeps its position, a new key goes last. *)
Fixpoint dict_set (k : string) (v : value) (d : dict) : dict :=
  match d with
  | [] => [(k, v)]
  | (k', v') :: r =>
      if String.eqb k k' then (k', v) :: r else (k', v') :: dict_set k v r
  end.

(* ================================================================= *)
(** ** Helpers of [main.py] *)

(** [isinstance(v, ObjectId)] *)
Definition is_ObjectId (v : value) : bool :=
  match v with VOid _ => true | _ => false end.

Definition oid_str (v : value) : value :=
  match v with
  | VOid o => VStr (Oid.str o)
  | _ => v
  end.

(** One iteration of the loop of [serialize]. *)
Definition serialize_step (out : dict) (kv : string * value) : dict :=
  let (k, v) := kv in
  if String.eqb k "_id" then dict_set "id" (oid_str v) out
  else if is_ObjectId v then dict_set k (oid_str v) out
  else dict_set k v out.

Definition serialize_items (items : dict) : dict :=
  fold_left serialize_step items [].

(** [serialize(doc)]; [doc] is a dict or [None], and [not doc] holds of
    [None] and of the empty dict. *)
Definition serialize (doc : option dict) : option dict :=
  match doc with
  | None => None
  | Some [] => Some []
  | Some d => Some (serialize_items d)
  end.

(* ================================================================= *)
(** ** Python operators used by the handlers *)

(** What a handler call ends in.  FastAPI turns [HTTPException] into a
    response with its status code, a body that fails the request model
    into 422, and any other exception into 500. *)
Inductive exn : Type :=
| InvalidId            (* bson.errors.InvalidId *)
| KeyError (k : string)
| TypeError
| DuplicateKeyError.   (* pymongo.errors.DuplicateKeyError *)

Inductive outcome (A : Type) : Type :=
| Ok (a : A)
| HTTPException (status_code : Z) (detail : string)
| Raised (e : exn)
| RequestValidationError.

Arguments Ok {A} a.
Arguments HTTPException {A} status_code detail.
Arguments Raised {A} e.
Arguments RequestValidationError {A}.

Definition status_code_of {A} (r : outcome A) : Z :=
  match r with
  | Ok _ => 200
  | HTTPException c _ => c
  | Raised _ => 500
  | RequestValidationError => 422
  end.

Definition client_error (c : Z) : bool := (400 <=? c)%Z && (c <? 500)%Z.

Definition bind_outcome {A B} (r : outcome A) (f : A -> outcome B) : outcome B :=
  match r with
  | Ok a => f a
  | HTTPException c d => HTTPException c d
  | Raised e => Raised e
  | RequestValidationError => RequestValidationError
  end.

Definition b2z (b : bool) : Z := if b then 1%Z else 0%Z.

(** [a == b] *)
Fixpoint py_eq (a b : value) : bool :=
  match a, b with
  | VNone, VNone => true
  | VBool x, VBool y => Bool.eqb x y
  | VBool x, VInt y => (b2z x =? y)%Z
  | VInt x, VBool y => (x =? b2z y)%Z
  | VInt x, VInt y => (x =? y)%Z
  | VStr x, VStr y => String.eqb x y
  | VOid x, VOid y => Oid.eqb x y
  | VTime x, VTime y => (x =? y)%Z
  | VList x, VList y =>
      (fix eq_list (l1 l2 : list value) : bool :=
         match l1, l2 with
         | [], [] => true
         | u :: r1, w :: r2 => py_eq u w && eq_list r1 r2
         | _, _ => false
         end) x y
  | _, _ => false
  end.

(** [a < b]; ordering two values of unrelated types is a [TypeError], and
    so is ordering [None] with anything. *)
Fixpoint py_lt (a b : value) : outcome bool :=
  match a, b with
  | VBool x, VBool y => Ok (b2z x <? b2z y)%Z
  | VBool x, VInt y => Ok (b2z x <? y)%Z
  | VInt x, VBool y => Ok (x <? b2z y)%Z
  | VInt x, VInt y => Ok (x <? y)%Z
  | VStr x, VStr y => Ok (String.ltb x y)
  | VOid x, VOid y => Ok (String.ltb (Oid.str x) (Oid.str y))
  | VTime x, VTime y => Ok (x <? y)%Z
  | VList x, VList y =>
      (fix lt_list (l1 l2 : list value) : outcome bool :=
         match l1, l2 with
         | [], [] => Ok false
         | [], _ :: _ => Ok true
         | _ :: _, [] => Ok false
         | u :: r1, w :: r2 => if py_eq u w then lt_list r1 r2 else py_lt u w
         end) x y
  | _, _ => Raised TypeError
  end.

(** [s in container] for a string [s]: membership in a list, substring of
    a string, [TypeError] on a value that is not iterable. *)
Definition py_in (s : string) (container : value) : outcome bool :=
  match container with
  | VList l => Ok (existsb (py_eq (VStr s)) l)
  | VStr t => Ok (match String.index 0 s t with Some _ => true | None => false end)
  | _ => Raised TypeError
  end.

(** [sorted(docs, key=..., reverse=...)]: a stable sort that orders keys
    with [<] only; a comparison that raises aborts it.  With
    [reverse=True] the list is reversed before and after, which keeps
    equal keys in their original order. *)
Section Sorted.
Variable A : Type.
Variable key : A -> value.

Fixpoint insert_sorted (x : A) (l : list A) : outcome (list A) :=
  match l with
  | [] => Ok [x]
  | y :: r =>
      bind_outcome (py_lt (key y) (key x)) (fun b =>
        if b then bind_outcome (insert_sorted x r) (fun r' => Ok (y :: r'))
        else Ok (x :: y :: r))
  end.

Fixpoint sort_asc (l : list A) : outcome (list A) :=
  match l with
  | [] => Ok []
  | x :: r => bind_outcome (sort_asc r) (insert_sorted x)
  end.

Definition sorted (reverse : bool) (l : list A) : outcome (list A) :=
  if reverse
  then bind_outcome (sort_asc (rev l)) (fun r => Ok (rev r))
  else sort_asc l.
End Sorted.

(* ================================================================= *)
(** ** The document store (pymongo) *)

(** BSON equality of two values: same type, same content. *)
Fixpoint value_eqb (a b : value) : bool :=
  match a, b with
  | VNone, VNone => true
  | VBool x, VBool y => Bool.eqb x y
  | VInt x, VInt y => (x =? y)%Z
  | VStr x, VStr y => String.eqb x y
  | VOid x, VOid y => Oid.eqb x y
  | VTime x, VTime y => (x =? y)%Z
  | VList x, VList y =>
      (fix eq_list (l1 l2 : list value) : bool :=
         match l1, l2 with
         | [], [] => true
         | u :: r1, w :: r2 => value_eqb u w && eq_list r1 r2
         | _, _ => false
         end) x y
  | _, _ => false
  end.

(** A query filter, as the predicate it denotes on documents. *)
Definition query : Type := dict -> bool.

(** [{}] *)
Definition q_all : query := fun _ => true.

(** [{"_id": v}]; the store never holds an array under [_id]. *)
Definition q_id (v : value) : query := fun d =>
  match dict_get "_id" d with
  | Some w => value_eqb v w
  | None => false
  end.

(** [{k: v}] for a scalar [v]: the field equals [v], or is an array with
    an element equal to [v]. *)
Definition q_field (k : string) (v : value) : query := fun d =>
  match dict_get k d with
  | Some (VList l) => existsb (value_eqb v) l
  | Some w => value_eqb v w
  | None => false
  end.

(** The three collections the handlers name: ["user"], ["chat"],
    ["message"]. *)
Inductive collection : Type := user | chat | message.

Record store : Type := mkStore {
  users : list dict;
  chats : list dict;
  messages : list dict
}.

Definition empty_store : store := mkStore [] [] [].

(** [db[c]] *)
Definition coll (db : store) (c : collection) : list dict :=
  match c with
  | user => users db
  | chat => chats db
  | message => messages db
  end.

Definition set_coll (db : store) (c : collection) (docs : list dict) : store :=
  match c with
  | user => mkStore docs (chats db) (messages db)
  | chat => mkStore (users db) docs (messages db)
  | message => mkStore (users db) (chats db) docs
  end.

(** [find_one(q)]: the first match in natural (insertion) order. *)
Definition find_one (docs : list dict) (q : query) : option dict :=
  List.find q docs.

(** [update_one(q, {"$set": {k: v}})] *)
Fixpoint update_one (docs : list dict) (q : query) (k : string) (v : value)
  : list dict :=
  match docs with
  | [] => []
  | d :: r => if q d then dict_set k v d :: r else d :: update_one r q k v
  end.

(** Handlers: state over the store, ending in an [outcome]. *)
Definition M (A : Type) : Type := store -> outcome A * store.

Definition ret {A} (a : A) : M A := fun db => (Ok a, db).

Definition bind {A B} (m : M A) (f : A -> M B) : M B := fun db =>
  match m db with
  | (Ok a, db') => f a db'
  | (HTTPException c d, db') => (HTTPException c d, db')
  | (Raised e, db') => (Raised e, db')
  | (RequestValidationError, db') => (RequestValidationError, db')
  end.

Definition raise {A} (e : exn) : M A := fun db => (Raised e, db).

Definition http_error {A} (c : Z) (detail : string) : M A :=
  fun db => (HTTPException c detail, db).

Definition lift {A} (r : outcome A) : M A := fun db => (r, db).

Notation "x <- m ;; k" := (bind m (fun x => k))
  (at level 61, m at next level, right associativity).
Notation "m ;;; k" := (bind m (fun _ => k))
  (at level 61, right associativity).

Definition db_find_one (c : collection) (q : query) : M (option dict) :=
  fun db => (Ok (find_one (coll db c) q), db).

Definition db_update_one (c : collection) (q : query) (k : string) (v : value)
  : M unit :=
  fun db => (Ok tt, set_coll db c (update_one (coll db c) q k v)).

(** An [ObjectId] instance as [ObjectId(s)] builds it from a string: the
    twelve bytes of an identifier, or fewer bytes (given by their digits)
    when the 24 characters held whitespace. *)
Inductive object_id : Type :=
| Full (o : ObjectId)
| Short (h : string).

Definition of_hex (h : string) : object_id :=
  match bool_dec (Oid.is_oid_hex h) true with
  | left pf => Full (exist _ h pf)
  | right _ => Short h
  end.

(** [ObjectId(s)]: a string of 24 characters that [bytes.fromhex] reads
    gives the instance holding the bytes read; any other string raises
    [InvalidId]. *)
Definition ObjectId_of (s : string) : outcome object_id :=
  if (String.length s =? 24)%nat then
    match Oid.fromhex s with
    | Some h => Ok (of_hex h)
    | None => Raised InvalidId
    end
  else Raised InvalidId.

(** [{"_id": oid}] for an [ObjectId] instance.  The store holds twelve-byte
    identifiers only, and none of them equals a shorter one. *)
Definition q_oid (i : object_id) : query :=
  match i with
  | Full o => q_id (VOid o)
  | Short _ => fun _ => false
  end.

(** What a call takes from outside the program: the clock reading and the
    identifier the driver generates for the inserted document. *)
Record env : Type := mkEnv {
  env_now : Z;
  env_oid : ObjectId
}.

(** Modelled from the spec: [database.py] ([create_document],
    [get_documents]) is not among the sources.  The persistence gateway
    "inserts one and returns the new id"; the spec has the store assign
    [created_at] to a message and [updated_at] to a chat, the creation
    time.  The model writes both fields on every new document; what is
    proved about timestamps concerns [created_at] of messages and
    [updated_at] of chats.  The new id comes back in string form, the form
    [main.py] parses again.  The store refuses a second document with the
    same [_id].  A collection is kept as the list of its documents, new
    ones last; the spec leaves the order of a listing open. *)
Definition create_document (e : env) (c : collection) (data : dict) : M string :=
  fun db =>
    let data_dict :=
      dict_set "updated_at" (VTime (env_now e))
        (dict_set "created_at" (VTime (env_now e)) data) in
    let doc := ("_id", VOid (env_oid e)) :: data_dict in
    if existsb (q_id (VOid (env_oid e))) (coll db c)
    then (Raised DuplicateKeyError, db)
    else (Ok (Oid.str (env_oid e)), set_coll db c (coll db c ++ [doc])).

(** Modelled from the spec: "find many matching filter"; the documents
    come in the order the collection is kept in. *)
Definition get_documents (c : collection) (filter_dict : query) : M (list dict) :=
  fun db => (Ok (filter filter_dict (coll db c)), db).

(* ================================================================= *)
(** ** Request models *)

Definition opt_str (o : option string) : value :=
  match o with Some s => VStr s | None => VNone end.

Record CreateUser : Type := mkCreateUser {
  name : string;
  avatar : option string;
  status : option string
}.

Record CreateChat : Type := mkCreateChat {
  participants : list string;
  title : option string;
  is_group : bool
}.

Record CreateMessage : Type := mkCreateMessage {
  chat_id : string;
  sender_id : string;
  content : string;
  type : string
}.

(** [payload.model_dump()], fields in declaration order. *)
Definition dump_user (p : CreateUser) : dict :=
  [("name", VStr (name p)); ("avatar", opt_str (avatar p));
   ("status", opt_str (status p))].

Definition dump_chat (p : CreateChat) : dict :=
  [("participants", VList (map VStr (participants p)));
   ("title", opt_str (title p)); ("is_group", VBool (is_group p))].

Definition dump_message (p : CreateMessage) : dict :=
  [("chat_id", VStr (chat_id p)); ("sender_id", VStr (sender_id p));
   ("content", VStr (content p)); ("type", VStr (type p))].

(** Validation of a JSON body against the field declarations.  A field of
    type [str] takes a string and nothing else; [Optional[str]] also takes
    null; [List[str]] a list of strings; [bool] a boolean, the integers 0
    and 1, and the usual spellings.  No declaration carries a length
    constraint.  Keys the model does not declare are ignored. *)
Module Validate.

Definition v_str (v : value) : option string :=
  match v with VStr s => Some s | _ => None end.

Definition v_opt_str (v : value) : option (option string) :=
  match v with
  | VNone => Some None
  | VStr s => Some (Some s)
  | _ => None
  end.

Fixpoint v_list_str (l : list value) : option (list string) :=
  match l with
  | [] => Some []
  | v :: r =>
      match v_str v, v_list_str r with
      | Some s, Some r' => Some (s :: r')
      | _, _ => None
      end
  end.

Definition v_list (v : value) : option (list string) :=
  match v with VList l => v_list_str l | _ => None end.

Definition one_of (s : string) (l : list string) : bool :=
  existsb (String.eqb s) l.

Definition v_bool (v : value) : option bool :=
  match v with
  | VBool b => Some b
  | VInt 0 => Some false
  | VInt 1 => Some true
  | VStr s =>
      if String.eqb s "0" || one_of (Oid.lower s) ["f"; "n"; "no"; "off"; "false"]
      then Some false
      else if String.eqb s "1" || one_of (Oid.lower s) ["t"; "y"; "on"; "yes"; "true"]
      then Some true
      else None
  | _ => None
  end.

(** [name: T = Field(...)] / [name: T]: the key must be present. *)
Definition required {A} (check : value -> option A) (k : string) (body : dict)
  : option A :=
  match dict_get k body with
  | Some v => check v
  | None => None
  end.

(** [name: T = default] *)
Definition defaulted {A} (check : value -> option A) (k : string) (default : A)
  (body : dict) : option A :=
  match dict_get k body with
  | Some v => check v
  | None => Some default
  end.

Definition create_user (body : dict) : option CreateUser :=
  match required v_str "name" body,
        defaulted v_opt_str "avatar" None body,
        defaulted v_opt_str "status" (Some "Hey there! I am using VibeChat") body
  with
  | Some n, Some a, Some s => Some (mkCreateUser n a s)
  | _, _, _ => None
  end.

Definition create_chat (body : dict) : option CreateChat :=
  match required v_list "participants" body,
        defaulted v_opt_str "title" None body,
        defaulted v_bool "is_group" false body
  with
  | Some p, Some t, Some g => Some (mkCreateChat p t g)
  | _, _, _ => None
  end.

Definition create_message (body : dict) : option CreateMessage :=
  match required v_str "chat_id" body,
        required v_str "sender_id" body,
        required v_str "content" body,
        defaulted v_str "type" "text" body
  with
  | Some c, Some s, Some t, Some ty => Some (mkCreateMessage c s t ty)
  | _, _, _, _ => None
  end.

End Validate.

(* ================================================================= *)
(** ** Handlers *)

(** [not doc] for a dict or [None] *)
Definition falsy (doc : option dict) : bool :=
  match doc with
  | None => true
  | Some [] => true
  | Some _ => false
  end.

(** [doc[k]] where [doc] is the result of [find_one] *)
Definition subscript (doc : option dict) (k : string) : outcome value :=
  match doc with
  | None => Raised TypeError
  | Some d =>
      match dict_get k d with
      | Some v => Ok v
      | None => Raised (KeyError k)
      end
  end.

(** [d.get(k)] *)
Definition get (k : string) (d : dict) : value :=
  match dict_get k d with Some v => v | None => VNone end.

(** [d.get(k, default)] *)
Definition get_default (k : string) (default : value) (d : dict) : value :=
  match dict_get k d with Some v => v | None => default end.

Section Handlers.

(** MongoDB's regular-expression search, [regex_search pattern options s]:
    the one part of the store the handlers use without the development
    fixing what it computes. *)
Variable regex_search : string -> string -> string -> bool.

(** [{k: {"$regex": pattern, "$options": options}}] *)
Definition q_regex (k pattern options : string) : query := fun d =>
  match dict_get k d with
  | Some (VStr s) => regex_search pattern options s
  | Some (VList l) =>
      existsb (fun v => match v with
                        | VStr s => regex_search pattern options s
                        | _ => false
                        end) l
  | _ => false
  end.

Definition list_users (q : option string) : M (list (option dict)) :=
  let filter_dict :=
    match q with
    | Some (String c r) => q_regex "name" (String c r) "i"
    | _ => q_all
    end in
  docs <- get_documents user filter_dict ;;
  ret (map (fun d => serialize (Some d)) docs).

Definition create_user (e : env) (payload : CreateUser) : M (option dict) :=
  user_id <- create_document e user (dump_user payload) ;;
  oid <- lift (ObjectId_of user_id) ;;
  doc <- db_find_one user (q_oid oid) ;;
  ret (serialize doc).

Definition list_chats (user_id : string) : M (list (option dict)) :=
  docs <- get_documents chat (q_field "participants" (VStr user_id)) ;;
  docs <- lift (sorted (get "updated_at") true docs) ;;
  ret (map (fun d => serialize (Some d)) docs).

Definition create_chat (e : env) (payload : CreateChat) : M (option dict) :=
  if (List.length (participants payload) <? 2)%nat && negb (is_group payload)
  then http_error 400 "A direct chat requires 2 participants"
  else
    chat_id <- create_document e chat (dump_chat payload) ;;
    oid <- lift (ObjectId_of chat_id) ;;
    doc <- db_find_one chat (q_oid oid) ;;
    ret (serialize doc).

Definition list_messages (chat_id : string) : M (list (option dict)) :=
  docs <- get_documents message (q_field "chat_id" (VStr chat_id)) ;;
  docs <- lift (sorted (get "created_at") false docs) ;;
  ret (map (fun d => serialize (Some d)) docs).

Definition send_message (e : env) (payload : CreateMessage) : M (option dict) :=
  oid <- lift (ObjectId_of (chat_id payload)) ;;
  chat_doc <- db_find_one chat (q_oid oid) ;;
  if falsy chat_doc then http_error 404 "Chat not found"
  else
    let c := match chat_doc with Some d => d | None => [] end in
    is_in <- lift (py_in (sender_id payload)
                     (get_default "participants" (VList []) c)) ;;
    if negb is_in then http_error 403 "Sender not part of this chat"
    else
      msg_id <- create_document e message (dump_message payload) ;;
      chat_key <- lift (subscript chat_doc "_id") ;;
      moid <- lift (ObjectId_of msg_id) ;;
      msg <- db_find_one message (q_oid moid) ;;
      created <- lift (subscript msg "created_at") ;;
      db_update_one chat (q_id chat_key) "updated_at" created ;;;
      moid' <- lift (ObjectId_of msg_id) ;;
      doc <- db_find_one message (q_oid moid') ;;
      ret (serialize doc).

(** The endpoints: the body is validated against the request model
    before the handler runs; failure is a 422. *)
Definition post_users (e : env) (body : dict) : M (option dict) :=
  match Validate.create_user body with
  | Some payload => create_user e payload
  | None => lift RequestValidationError
  end.

Definition post_chats (e : env) (body : dict) : M (option dict) :=
  match Validate.create_chat body with
  | Some payload => create_chat e payload
  | None => lift RequestValidationError
  end.

Definition post_messages (e : env) (body : dict) : M (option dict) :=
  match Validate.create_message body with
  | Some payload => send_message e payload
  | None => lift RequestValidationError
  end.

End Handlers.

(* ================================================================= *)
(** * Properties *)

(** ** Identifiers *)

Lemma lower_ascii_hex (c : ascii) :
  Oid.is_lower_hex c = true -> Oid.lower_ascii c = c.
Proof.
  unfold Oid.is_lower_hex, Oid.lower_ascii.
  intros H.
  destruct (Nat.leb_spec 65 (nat_of_ascii c)) as [Lo | Lo]; simpl; trivial.
  destruct (Nat.leb_spec (nat_of_ascii c) 90) as [Hi | Hi]; simpl; trivial.
  apply orb_true_iff in H.
  destruct H as [H | H]; apply andb_true_iff in H; destruct H as [A B];
    apply Nat.leb_le in A, B; lia.
Qed.

Lemma lower_hex_fixed (s : string) :
  Oid.all_chars Oid.is_lower_hex s = true -> Oid.lower s = s.
Proof.
  induction s as [| c r IH]; simpl; intros H; trivial.
  apply andb_true_iff in H. destruct H as [Hc Hr].
  now rewrite (lower_ascii_hex c Hc), (IH Hr).
Qed.

Lemma oid_irrelevant (h : string) (p q : Oid.is_oid_hex h = true) :
  exist (fun h => Oid.is_oid_hex h = true) h p = exist _ h q.
Proof.
  f_equal. apply UIP_dec. apply bool_dec.
Qed.

Lemma oid_eqb_eq (a b : ObjectId) : Oid.eqb a b = true <-> a = b.
Proof.
  split.
  - destruct a as [x p], b as [y q]. unfold Oid.eqb. simpl. intros H.
    apply String.eqb_eq in H. subst y. apply oid_irrelevant.
  - intros ->. unfold Oid.eqb. apply String.eqb_refl.
Qed.

(** [ObjectId(str(o))] is [o] again. *)
Lemma parse_str (o : ObjectId) : Oid.parse (Oid.str o) = Some o.
Proof.
  destruct o as [h pf]. unfold Oid.parse, Oid.str. simpl.
  assert (E : Oid.lower h = h).
  { apply lower_hex_fixed. unfold Oid.is_oid_hex in pf.
    apply andb_true_iff in pf. tauto. }
  rewrite E.
  destruct (bool_dec (Oid.is_oid_hex h) true) as [pf' | n].
  - now rewrite (oid_irrelevant h pf' pf).
  - contradiction.
Qed.

Lemma hex_not_space (c : ascii) : Oid.is_hex c = true -> Oid.is_space c = false.
Proof.
  destruct c as [[|] [|] [|] [|] [|] [|] [|] [|]]; vm_compute;
    intros H; try reflexivity; discriminate H.
Qed.

Lemma length_lower s : String.length (Oid.lower s) = String.length s.
Proof. induction s; simpl; congruence. Qed.

(** On digits only, [fromhex] reads every character. *)
Lemma fromhex_digits : forall n s,
  String.length s = (2 * n)%nat ->
  Oid.all_chars Oid.is_lower_hex (Oid.lower s) = true ->
  Oid.fromhex s = Some (Oid.lower s).
Proof.
  induction n as [| n IH]; intros s L A.
  - destruct s; [reflexivity | discriminate].
  - destruct s as [| c [| d r]]; try (simpl in L; lia).
    simpl in A. apply andb_true_iff in A. destruct A as [Hc A].
    apply andb_true_iff in A. destruct A as [Hd A].
    cbn [Oid.fromhex]. rewrite (hex_not_space c Hc).
    unfold Oid.is_hex at 1 2. rewrite Hc, Hd. cbn [andb].
    rewrite (IH r); trivial. simpl in L. lia.
Qed.

(** [fromhex] yields at most as many digits as the string has characters,
    and as many only when it skipped nothing. *)
Lemma fromhex_bound : forall n s h,
  (String.length s <= n)%nat -> Oid.fromhex s = Some h ->
  (String.length h <= String.length s)%nat /\
  (String.length h = String.length s -> h = Oid.lower s).
Proof.
  induction n as [| n IH]; intros s h L F.
  - destruct s; [| simpl in L; lia]. inversion F. now split.
  - destruct s as [| c r]; [inversion F; now split |].
    cbn [Oid.fromhex] in F. destruct (Oid.is_space c).
    + destruct (IH r h) as [B _]; [simpl in L; lia | trivial |].
      simpl. split; [lia | intros E; lia].
    + destruct r as [| d r']; [discriminate |].
      destruct (Oid.is_hex c && Oid.is_hex d); [| discriminate].
      destruct (Oid.fromhex r') as [h' |] eqn:F'; [| discriminate].
      inversion F; subst h. clear F.
      destruct (IH r' h') as [B E]; [simpl in L; lia | trivial |].
      simpl. split; [lia |].
      intros Q. rewrite E; [reflexivity | lia].
Qed.

Lemma of_hex_full h pf : of_hex h = Full (exist _ h pf).
Proof.
  unfold of_hex. destruct (bool_dec (Oid.is_oid_hex h) true) as [pf' | n].
  - now rewrite (oid_irrelevant h pf' pf).
  - contradiction.
Qed.

(** [ObjectId(s)] on 24 hexadecimal digits is the identifier they
    spell. *)
Lemma ObjectId_of_parse (s : string) (o : ObjectId) :
  Oid.parse s = Some o -> ObjectId_of s = Ok (Full o).
Proof.
  unfold Oid.parse.
  destruct (bool_dec (Oid.is_oid_hex (Oid.lower s)) true) as [pf | n];
    [| discriminate].
  intros E. inversion E; subst o. clear E.
  assert (Q := pf). unfold Oid.is_oid_hex in Q.
  apply andb_true_iff in Q. destruct Q as [L A].
  apply Nat.eqb_eq in L. rewrite length_lower in L.
  unfold ObjectId_of. rewrite L. cbn [Nat.eqb].
  rewrite (fromhex_digits 12 s L A).
  now rewrite (@of_hex_full (Oid.lower s) pf).
Qed.

(** On any other string it raises, or builds an instance of fewer than
    twelve bytes. *)
Lemma ObjectId_of_unparsed (s : string) :
  Oid.parse s = None ->
  ObjectId_of s = Raised InvalidId \/ exists h, ObjectId_of s = Ok (Short h).
Proof.
  intros P. unfold ObjectId_of.
  destruct (Nat.eqb_spec (String.length s) 24) as [L | L]; [| now left].
  destruct (Oid.fromhex s) as [h |] eqn:F; [| now left].
  right. exists h. unfold of_hex.
  destruct (bool_dec (Oid.is_oid_hex h) true) as [pf | n]; trivial.
  exfalso.
  assert (Q := pf). unfold Oid.is_oid_hex in Q.
  apply andb_true_iff in Q. destruct Q as [Lh _]. apply Nat.eqb_eq in Lh.
  destruct (fromhex_bound (n := 24) s (h := h)) as [_ E]; [lia | trivial |].
  rewrite E in pf by lia.
  unfold Oid.parse in P.
  destruct (bool_dec (Oid.is_oid_hex (Oid.lower s)) true); [discriminate | contradiction].
Qed.

Lemma ObjectId_of_str (o : ObjectId) : ObjectId_of (Oid.str o) = Ok (Full o).
Proof. apply ObjectId_of_parse, parse_str. Qed.

(** ** Dicts *)

Lemma dict_get_set_same k v d : dict_get k (dict_set k v d) = Some v.
Proof.
  induction d as [| [k' v'] r IH]; simpl.
  - now rewrite String.eqb_refl.
  - destruct (String.eqb k k') eqn:E; simpl; rewrite E; trivial.
Qed.

Lemma dict_get_set_other k k' v d :
  k <> k' -> dict_get k (dict_set k' v d) = dict_get k d.
Proof.
  intros N. induction d as [| [k2 v2] r IH]; simpl.
  - apply String.eqb_neq in N. now rewrite N.
  - destruct (String.eqb k' k2) eqn:E; simpl.
    + apply String.eqb_eq in E. subst k2.
      apply String.eqb_neq in N. now rewrite N.
    + now rewrite IH.
Qed.

Lemma dict_get_none k d : dict_get k d = None <-> ~ In k (keys d).
Proof.
  induction d as [| [k' v'] r IH]; simpl.
  - tauto.
  - destruct (String.eqb_spec k k') as [-> | N].
    + split; [discriminate | intros H; exfalso; apply H; now left].
    + rewrite IH. split; intros H; [intros [E | I]; [congruence | tauto] | tauto].
Qed.

Lemma dict_set_new k v d : ~ In k (keys d) -> dict_set k v d = (d ++ [(k, v)])%list.
Proof.
  induction d as [| [k' v'] r IH]; simpl; intros N; trivial.
  destruct (String.eqb_spec k k') as [-> | N'].
  - exfalso. apply N. now left.
  - rewrite IH; tauto.
Qed.

Lemma keys_dict_set_in k v d : In k (keys d) -> keys (dict_set k v d) = keys d.
Proof.
  induction d as [| [k' v'] r IH]; simpl; intros I; [tauto |].
  destruct (String.eqb_spec k k') as [-> | N]; simpl; trivial.
  f_equal. apply IH. destruct I; [congruence | trivial].
Qed.

Lemma dict_set_wf k v d : dict_wf d -> dict_wf (dict_set k v d).
Proof.
  unfold dict_wf. intros W.
  destruct (in_dec string_dec k (keys d)) as [I | N].
  - now rewrite keys_dict_set_in.
  - rewrite dict_set_new by trivial. unfold keys. rewrite map_app. simpl.
    apply (Permutation_NoDup (l := k :: map fst d)).
    + apply Permutation_cons_append.
    + now constructor.
Qed.

(** ** The normalizer *)

(** The field name and the value the contract of the normalizer gives to
    a field [(k, v)] of the input. *)
Definition renamed (k : string) : string :=
  if String.eqb k "_id" then "id" else k.

Definition normalized (kv : string * value) : string * value :=
  (renamed (fst kv), oid_str (snd kv)).

Lemma oid_str_other v : is_ObjectId v = false -> oid_str v = v.
Proof. destruct v; simpl; trivial; discriminate. Qed.

Lemma serialize_step_set out k v :
  serialize_step out (k, v) = dict_set (renamed k) (oid_str v) out.
Proof.
  unfold serialize_step, renamed.
  destruct (String.eqb k "_id"); trivial.
  destruct (is_ObjectId v) eqn:E; trivial.
  now rewrite oid_str_other.
Qed.

Lemma serialize_fold_fresh d : forall acc,
  NoDup (keys acc ++ map renamed (keys d)) ->
  fold_left serialize_step d acc = (acc ++ map normalized d)%list.
Proof.
  induction d as [| [k v] r IH]; intros acc W;
    cbn [fold_left map] in *; unfold keys in W; cbn [map fst] in W;
    fold (keys acc) in W.
  - now rewrite app_nil_r.
  - fold (keys r) in W. rewrite serialize_step_set.
    assert (N : ~ In (renamed k) (keys acc)).
    { intros I. apply NoDup_remove_2 in W. apply W. apply in_or_app. now left. }
    rewrite dict_set_new by trivial.
    rewrite IH.
    + now rewrite <- app_assoc.
    + unfold keys in *. rewrite map_app. simpl. now rewrite <- app_assoc.
Qed.

Lemma renamed_keys_nodup d :
  dict_wf d -> ~ (In "_id" (keys d) /\ In "id" (keys d)) ->
  NoDup (map renamed (keys d)).
Proof.
  intros W C. apply NoDup_map_NoDup_ForallPairs; trivial.
  intros a b Ia Ib. unfold renamed.
  destruct (String.eqb_spec a "_id") as [-> | Na];
    destruct (String.eqb_spec b "_id") as [-> | Nb]; trivial.
  - intros <-. tauto.
  - intros ->. tauto.
Qed.

(** Lookup in the result of the loop, for a key the renaming does not
    touch: the value stored under it, normalized.  Only distinct keys are
    needed here. *)
Lemma serialize_fold_get k d : forall acc,
  dict_wf d -> k <> "_id" -> k <> "id" ->
  dict_get k (fold_left serialize_step d acc) =
  match dict_get k d with
  | Some v => Some (oid_str v)
  | None => dict_get k acc
  end.
Proof.
  induction d as [| [k' v'] r IH]; intros acc W N1 N2;
    cbn [fold_left dict_get]; trivial.
  rewrite serialize_step_set.
  inversion W as [| ? ? Nin W']; subst.
  rewrite IH by trivial.
  destruct (String.eqb_spec k k') as [-> | N].
  - apply dict_get_none in Nin. rewrite Nin.
    unfold renamed. apply String.eqb_neq in N1. rewrite N1.
    apply dict_get_set_same.
  - destruct (dict_get k r); trivial.
    apply dict_get_set_other. unfold renamed.
    destruct (String.eqb k' "_id"); congruence.
Qed.

Lemma serialize_items_get k d :
  dict_wf d -> k <> "_id" -> k <> "id" ->
  dict_get k (serialize_items d) = option_map oid_str (dict_get k d).
Proof.
  intros W N1 N2. unfold serialize_items. rewrite serialize_fold_get by trivial.
  now destruct (dict_get k d).
Qed.

Lemma serialize_some d : serialize (Some d) = Some (serialize_items d).
Proof. destruct d; trivial. Qed.

Definition oid_a : ObjectId := exist _ "65f1a2b3c4d5e6f708192a3b" eq_refl.
Definition oid_b : ObjectId := exist _ "65f1a2b3c4d5e6f708192a3c" eq_refl.
Definition oid_c : ObjectId := exist _ "65f1a2b3c4d5e6f708192a3d" eq_refl.

(** A document that carries an [id] field of its own next to [_id]. *)
Definition doc_with_id : dict := [("_id", VOid oid_a); ("id", VStr "legacy-7")].

(** C1, as stated, fails on a document that has both [_id] and [id]: the
    loop writes [out["id"]] twice and the later field wins, so the result
    does not hold the string form of [_id] under [id]. *)
Lemma serialize_id_collision :
  doc_with_id <> [] /\ dict_wf doc_with_id /\
  dict_get "_id" doc_with_id = Some (VOid oid_a) /\
  serialize (Some doc_with_id) = Some [("id", VStr "legacy-7")] /\
  ~ (exists out, serialize (Some doc_with_id) = Some out /\
                 dict_get "id" out = Some (VStr (Oid.str oid_a))).
Proof.
  split; [discriminate |].
  split.
  { unfold dict_wf. simpl. repeat constructor; simpl; intuition discriminate. }
  split; [reflexivity |].
  split; [reflexivity |].
  intros [out [E G]]. vm_compute in E. inversion E; subst out.
  vm_compute in G. discriminate.
Qed.

(** C1 (amended): on a document with distinct keys that does not hold
    both [_id] and [id], [serialize] returns the fields in their order,
    [_id] renamed to [id], every value passed through [oid_str]: a native
    identifier becomes its canonical string, any other value is kept.  An
    absent or empty document comes back as it is. *)
Theorem serialize_normalizes (d : dict) :
  dict_wf d -> ~ (In "_id" (keys d) /\ In "id" (keys d)) ->
  serialize (Some d) = Some (map normalized d) /\
  (forall k v, In (k, v) d ->
     (k = "_id" -> In ("id", oid_str v) (map normalized d)) /\
     (k <> "_id" -> forall o, v = VOid o ->
        In (k, VStr (Oid.str o)) (map normalized d)) /\
     (k <> "_id" -> is_ObjectId v = false -> In (k, v) (map normalized d))) /\
  (forall o, oid_str (VOid o) = VStr (Oid.str o)) /\
  ~ In "_id" (keys (map normalized d)) /\
  serialize None = None /\ serialize (Some []) = Some [].
Proof.
  intros W C. split; [| split; [| split; [| split]]].
  - rewrite serialize_some. unfold serialize_items.
    rewrite serialize_fold_fresh; trivial.
    simpl. now apply renamed_keys_nodup.
  - intros k v I.
    apply (in_map normalized) in I. unfold normalized in I at 1. simpl in I.
    repeat split.
    + intros ->. exact I.
    + intros N o ->. unfold renamed in I. apply String.eqb_neq in N.
      now rewrite N in I.
    + intros N P. unfold renamed in I. apply String.eqb_neq in N.
      rewrite N in I. now rewrite oid_str_other in I.
  - reflexivity.
  - unfold keys. rewrite map_map. intros I. apply in_map_iff in I.
    destruct I as [[k v] [E _]]. simpl in E. unfold renamed in E.
    destruct (String.eqb_spec k "_id"); [discriminate | congruence].
  - split; reflexivity.
Qed.

Definition doc_plain : dict :=
  [("_id", VOid oid_a); ("owner", VOid oid_b); ("name", VStr "Ada")].

Lemma serialize_normalizes_witness :
  serialize (Some doc_plain) =
  Some [("id", VStr "65f1a2b3c4d5e6f708192a3b");
        ("owner", VStr "65f1a2b3c4d5e6f708192a3c"); ("name", VStr "Ada")].
Proof.
  assert (W : dict_wf doc_plain).
  { unfold dict_wf. simpl. repeat constructor; simpl; intuition discriminate. }
  assert (C : ~ (In "_id" (keys doc_plain) /\ In "id" (keys doc_plain))).
  { simpl. intuition discriminate. }
  exact (proj1 (serialize_normalizes W C)).
Defined.

(** ** Lookups in the store *)

Lemma value_eqb_oid o w : value_eqb (VOid o) w = true -> w = VOid o.
Proof.
  destruct w; simpl; try discriminate.
  intros H. apply oid_eqb_eq in H. now subst.
Qed.

Lemma q_id_oid o d : q_id (VOid o) d = true <-> dict_get "_id" d = Some (VOid o).
Proof.
  unfold q_id. split.
  - destruct (dict_get "_id" d) as [w |]; [| discriminate].
    intros H. apply value_eqb_oid in H. now subst.
  - intros ->. simpl. now apply oid_eqb_eq.
Qed.

Lemma find_one_id docs o c :
  find_one docs (q_id (VOid o)) = Some c ->
  In c docs /\ dict_get "_id" c = Some (VOid o).
Proof.
  intros H. apply find_some in H. destruct H as [I Q].
  split; trivial. now apply q_id_oid.
Qed.

(** A document found by its [_id] is a non-empty dict. *)
Lemma found_not_falsy docs o c :
  find_one docs (q_id (VOid o)) = Some c -> falsy (Some c) = false.
Proof.
  intros H. apply find_one_id in H. destruct H as [_ G].
  destruct c; [discriminate | reflexivity].
Qed.

Lemma py_eq_str s v : py_eq (VStr s) v = true <-> v = VStr s.
Proof.
  destruct v; simpl; split; try discriminate.
  - intros H. apply String.eqb_eq in H. now subst.
  - intros H. inversion H. apply String.eqb_refl.
Qed.

Lemma py_in_list s l :
  existsb (py_eq (VStr s)) l = true <-> In (VStr s) l.
Proof.
  rewrite existsb_exists. split.
  - intros [v [I E]]. apply py_eq_str in E. now subst.
  - intros I. exists (VStr s). split; trivial. now apply py_eq_str.
Qed.

Ltac run_handler :=
  unfold send_message, create_chat, create_user, list_users, list_chats,
    list_messages, post_users, post_chats, post_messages,
    bind, lift, ret, http_error, raise, db_find_one, db_update_one,
    get_documents;
  cbn [coll set_coll].

(** Rewrites [ObjectId(s)] where [P] says which identifier [s] spells. *)
Ltac parsed P := rewrite (@ObjectId_of_parse _ _ P); cbn [q_oid].

Lemma find_one_never docs : find_one docs (fun _ => false) = None.
Proof. unfold find_one. induction docs; simpl; trivial. Qed.

(** [send_message] when [ObjectId(chat_id)] raises. *)
Lemma send_message_invalid (e : env) (p : CreateMessage) (db : store) :
  ObjectId_of (chat_id p) = Raised InvalidId ->
  send_message e p db = (Raised InvalidId, db).
Proof. intros R. run_handler. now rewrite R. Qed.

(** [send_message] when [ObjectId(chat_id)] builds an instance of fewer
    than twelve bytes: no stored chat has it, and the answer is 404. *)
Lemma send_message_short (e : env) (p : CreateMessage) (db : store) (h : string) :
  ObjectId_of (chat_id p) = Ok (Short h) ->
  send_message e p db = (HTTPException 404 "Chat not found", db).
Proof.
  intros R. run_handler. rewrite R. cbn [q_oid]. now rewrite find_one_never.
Qed.

Lemma send_message_unparsed (e : env) (p : CreateMessage) (db : store) :
  Oid.parse (chat_id p) = None ->
  send_message e p db = (Raised InvalidId, db) \/
  send_message e p db = (HTTPException 404 "Chat not found", db).
Proof.
  intros P. destruct (ObjectId_of_unparsed _ P) as [R | [h R]].
  - left. now apply send_message_invalid.
  - right. now apply (send_message_short e p db R).
Qed.

(** ** Sending a message: the error paths *)

Definition env_a : env := mkEnv 1700000000000 oid_a.
Definition env_b : env := mkEnv 1700000005000 oid_b.
Definition env_c : env := mkEnv 1700000009000 oid_c.

(** The store after one direct chat between ["ann"] and ["bob"] was
    created. *)
Definition store_one_chat : store :=
  snd (create_chat env_a (mkCreateChat ["ann"; "bob"] None false) empty_store).

(** C5, as stated, fails: a [chat_id] that is no identifier makes
    [ObjectId(...)] raise, nothing catches it, and the request ends as an
    unhandled server error. *)
Lemma malformed_chat_id_is_server_error :
  let p := mkCreateMessage "not-an-id" "ann" "hi" "text" in
  Oid.parse (chat_id p) = None /\
  fst (send_message env_b p store_one_chat) = Raised InvalidId /\
  status_code_of (fst (send_message env_b p store_one_chat)) = 500%Z /\
  client_error (status_code_of (fst (send_message env_b p store_one_chat))) = false.
Proof. vm_compute. repeat split. Qed.

(** C5 (amended): when [ObjectId] rejects [chat_id], a string that is
    not 24 characters long or that [bytes.fromhex] cannot read,
    [send_message] stops at the parse, before any query: the outcome is the
    uncaught [InvalidId], answered with status 500, which is not a client
    error, and the store is unchanged. *)
Theorem send_message_malformed_chat_id (e : env) (p : CreateMessage) (db : store) :
  String.length (chat_id p) <> 24%nat \/ Oid.fromhex (chat_id p) = None ->
  send_message e p db = (Raised InvalidId, db) /\
  status_code_of (fst (send_message e p db)) = 500%Z /\
  client_error (status_code_of (fst (send_message e p db))) = false.
Proof.
  intros H.
  assert (R : ObjectId_of (chat_id p) = Raised InvalidId).
  { unfold ObjectId_of. destruct H as [L | F].
    - apply Nat.eqb_neq in L. now rewrite L.
    - rewrite F. now destruct (String.length (chat_id p) =? 24)%nat. }
  rewrite (send_message_invalid e p db R). repeat split.
Qed.

Lemma send_message_malformed_chat_id_witness :
  String.length "not-an-id" <> 24%nat /\
  send_message env_b (mkCreateMessage "not-an-id" "ann" "hi" "text") store_one_chat
  = (Raised InvalidId, store_one_chat).
Proof.
  split; [discriminate |].
  apply (send_message_malformed_chat_id env_b
           (mkCreateMessage "not-an-id" "ann" "hi" "text") store_one_chat).
  left. discriminate.
Defined.

(** C2, as stated, fails: no chat has the id ["not-an-id"], yet the
    request does not end in 404 but in the uncaught [InvalidId] (500). *)
Lemma unknown_malformed_chat_not_404 :
  let p := mkCreateMessage "not-an-id" "ann" "hi" "text" in
  chats empty_store = [] /\
  fst (send_message env_b p empty_store) = Raised InvalidId /\
  status_code_of (fst (send_message env_b p empty_store)) <> 404%Z.
Proof. vm_compute. repeat split. discriminate. Qed.

(** C2 (amended): for a request whose [chat_id] is a well-formed
    identifier: when no chat has that identifier the request fails with 404,
    and when the chat exists and its [participants] list does not contain
    [sender_id] it fails with 403; in both cases the store, and so the
    message collection, is unchanged. *)
Theorem send_message_rejects (e : env) (p : CreateMessage) (db : store)
    (oid : ObjectId) :
  Oid.parse (chat_id p) = Some oid ->
  (find_one (chats db) (q_id (VOid oid)) = None ->
   send_message e p db = (HTTPException 404 "Chat not found", db)) /\
  (forall c l,
     find_one (chats db) (q_id (VOid oid)) = Some c ->
     dict_get "participants" c = Some (VList l) ->
     ~ In (VStr (sender_id p)) l ->
     send_message e p db = (HTTPException 403 "Sender not part of this chat", db)).
Proof.
  intros P. split.
  - intros F. run_handler. parsed P; rewrite F. reflexivity.
  - intros c l F G N. run_handler. parsed P; rewrite F.
    rewrite (found_not_falsy _ _ F).
    unfold get_default. rewrite G. cbn [py_in].
    destruct (existsb (py_eq (VStr (sender_id p))) l) eqn:E.
    + apply py_in_list in E. contradiction.
    + reflexivity.
Qed.

Lemma send_message_rejects_witness :
  send_message env_b (mkCreateMessage (Oid.str oid_c) "ann" "hi" "text") store_one_chat
    = (HTTPException 404 "Chat not found", store_one_chat) /\
  send_message env_b (mkCreateMessage (Oid.str oid_a) "eve" "hi" "text") store_one_chat
    = (HTTPException 403 "Sender not part of this chat", store_one_chat).
Proof.
  split.
  - apply (proj1 (send_message_rejects env_b
                    (mkCreateMessage (Oid.str oid_c) "ann" "hi" "text")
                    store_one_chat (oid := oid_c) eq_refl)).
    reflexivity.
  - refine (proj2 (send_message_rejects env_b
                    (mkCreateMessage (Oid.str oid_a) "eve" "hi" "text")
                    store_one_chat (oid := oid_a) eq_refl)
                  _ [VStr "ann"; VStr "bob"] eq_refl eq_refl _).
    simpl. intuition discriminate.
Defined.

(** C10: when the chat exists and its document has no [participants]
    field, [chat.get("participants", [])] is the empty list, nothing raises,
    and every sender is refused with 403. *)
Theorem send_message_no_participants_field (e : env) (p : CreateMessage)
    (db : store) (oid : ObjectId) (c : dict) :
  Oid.parse (chat_id p) = Some oid ->
  find_one (chats db) (q_id (VOid oid)) = Some c ->
  dict_get "participants" c = None ->
  get_default "participants" (VList []) c = VList [] /\
  send_message e p db = (HTTPException 403 "Sender not part of this chat", db).
Proof.
  intros P F G.
  assert (D : get_default "participants" (VList []) c = VList []).
  { unfold get_default. now rewrite G. }
  split; trivial.
  run_handler. parsed P; rewrite F, (found_not_falsy _ _ F), D. reflexivity.
Qed.

(** A store whose only chat document lacks the [participants] field. *)
Definition store_bare_chat : store :=
  mkStore [] [[("_id", VOid oid_a); ("title", VStr "imported")]] [].

Lemma send_message_no_participants_field_witness :
  send_message env_b (mkCreateMessage (Oid.str oid_a) "ann" "hi" "text") store_bare_chat
  = (HTTPException 403 "Sender not part of this chat", store_bare_chat).
Proof.
  apply (send_message_no_participants_field env_b
           (mkCreateMessage (Oid.str oid_a) "ann" "hi" "text")
           store_bare_chat (oid := oid_a)
           (c := [("_id", VOid oid_a); ("title", VStr "imported")]));
    reflexivity.
Defined.

(** ** Inserting and updating *)

Lemma find_one_none docs q : find_one docs q = None <-> existsb q docs = false.
Proof.
  unfold find_one. induction docs as [| d r IH]; simpl; [tauto |].
  destruct (q d); simpl; [split; discriminate | exact IH].
Qed.

Lemma find_one_app_new docs q d :
  find_one docs q = None -> q d = true -> find_one (docs ++ [d]) q = Some d.
Proof.
  unfold find_one. induction docs as [| x r IH]; simpl; intros N Q.
  - now rewrite Q.
  - destruct (q x); [discriminate | now apply IH].
Qed.

Lemma find_one_app_old docs q d c :
  find_one docs q = Some c -> find_one (docs ++ [d]) q = Some c.
Proof.
  unfold find_one. induction docs as [| x r IH]; simpl; intros F; [discriminate |].
  destruct (q x); [trivial | now apply IH].
Qed.

Lemma q_id_set w k v d : k <> "_id" -> q_id w (dict_set k v d) = q_id w d.
Proof.
  intros N. unfold q_id. rewrite dict_get_set_other; trivial. congruence.
Qed.

Lemma find_one_update docs w k v :
  k <> "_id" ->
  find_one (update_one docs (q_id w) k v) (q_id w) =
  option_map (dict_set k v) (find_one docs (q_id w)).
Proof.
  intros N. unfold find_one. induction docs as [| d r IH]; simpl; trivial.
  destruct (q_id w d) eqn:Q; simpl.
  - now rewrite q_id_set, Q.
  - now rewrite Q.
Qed.

(** The document [create_document] stores for a payload dump [data]. *)
Definition new_document (e : env) (data : dict) : dict :=
  ("_id", VOid (env_oid e))
    :: dict_set "updated_at" (VTime (env_now e))
         (dict_set "created_at" (VTime (env_now e)) data).

Lemma create_document_fresh e c data db :
  find_one (coll db c) (q_id (VOid (env_oid e))) = None ->
  create_document e c data db =
  (Ok (Oid.str (env_oid e)), set_coll db c (coll db c ++ [new_document e data])).
Proof.
  intros F. unfold create_document. apply find_one_none in F. now rewrite F.
Qed.

Lemma create_document_duplicate e c data db d :
  find_one (coll db c) (q_id (VOid (env_oid e))) = Some d ->
  create_document e c data db = (Raised DuplicateKeyError, db).
Proof.
  intros F. unfold create_document.
  destruct (existsb (q_id (VOid (env_oid e))) (coll db c)) eqn:E; trivial.
  apply find_one_none in E. congruence.
Qed.

Lemma new_document_id e data : q_id (VOid (env_oid e)) (new_document e data) = true.
Proof. apply q_id_oid. reflexivity. Qed.

(** ** Sending a message: the success path *)

(** The chat collection after [updated_at] of the chat [oid] was set. *)
Definition touch_chat (db : store) (oid : ObjectId) (t : value) : list dict :=
  update_one (chats db) (q_id (VOid oid)) "updated_at" t.

Lemma send_message_accepts (e : env) (p : CreateMessage) (db : store)
    (oid : ObjectId) (c : dict) :
  Oid.parse (chat_id p) = Some oid ->
  find_one (chats db) (q_id (VOid oid)) = Some c ->
  py_in (sender_id p) (get_default "participants" (VList []) c) = Ok true ->
  find_one (messages db) (q_id (VOid (env_oid e))) = None ->
  send_message e p db =
  (Ok (serialize (Some (new_document e (dump_message p)))),
   mkStore (users db) (touch_chat db oid (VTime (env_now e)))
     (messages db ++ [new_document e (dump_message p)])).
Proof.
  intros P F I N. run_handler. parsed P; rewrite F, (found_not_falsy _ _ F), I.
  cbn [negb].
  rewrite (create_document_fresh e message (dump_message p) db N).
  destruct (find_one_id _ _ F) as [_ G].
  unfold subscript at 1. rewrite G.
  rewrite ObjectId_of_str; cbn [q_oid]. cbn [coll set_coll messages chats users].
  rewrite (find_one_app_new _ _ _ N (new_document_id e (dump_message p))).
  reflexivity.
Qed.

(** Every way for [send_message] to answer normally goes through
    [send_message_accepts]. *)
Lemma send_message_ok_inv (e : env) (p : CreateMessage) (db db' : store)
    (r : option dict) :
  send_message e p db = (Ok r, db') ->
  exists oid c,
    Oid.parse (chat_id p) = Some oid /\
    find_one (chats db) (q_id (VOid oid)) = Some c /\
    py_in (sender_id p) (get_default "participants" (VList []) c) = Ok true /\
    find_one (messages db) (q_id (VOid (env_oid e))) = None.
Proof.
  intros H.
  destruct (Oid.parse (chat_id p)) as [oid |] eqn:P.
  2:{ destruct (send_message_unparsed e p db P) as [E | E];
      rewrite E in H; discriminate. }
  destruct (find_one (chats db) (q_id (VOid oid))) as [c |] eqn:F.
  2:{ revert H. run_handler. parsed P; rewrite F. discriminate. }
  exists oid, c. repeat split; trivial.
  - revert H. run_handler. parsed P; rewrite F, (found_not_falsy _ _ F).
    destruct (py_in (sender_id p) (get_default "participants" (VList []) c))
      as [[|] | | |]; trivial; discriminate.
  - destruct (find_one (messages db) (q_id (VOid (env_oid e)))) as [d |] eqn:N;
      trivial.
    revert H. run_handler. parsed P; rewrite F, (found_not_falsy _ _ F).
    destruct (py_in (sender_id p) (get_default "participants" (VList []) c))
      as [[|] | | |]; try discriminate.
    cbn [negb].
    rewrite (create_document_duplicate e message (dump_message p) db N).
    discriminate.
Qed.

(** C8: when [send_message] answers normally, the message [m] it stored is
    the last of the message collection and the one returned, the chat [c]
    the request names is found again as [c'] whose [updated_at] is the
    [created_at] of [m] (so it is not earlier), and every other field of
    the chat document is as before. *)
Theorem send_message_touches_chat (e : env) (p : CreateMessage) (db db' : store)
    (r : option dict) :
  send_message e p db = (Ok r, db') ->
  exists oid c c' m,
    Oid.parse (chat_id p) = Some oid /\
    find_one (chats db) (q_id (VOid oid)) = Some c /\
    messages db' = (messages db ++ [m])%list /\
    find_one (messages db') (q_id (VOid (env_oid e))) = Some m /\
    r = serialize (Some m) /\
    find_one (chats db') (q_id (VOid oid)) = Some c' /\
    dict_get "updated_at" c' = dict_get "created_at" m /\
    (exists tc tm,
       dict_get "updated_at" c' = Some (VTime tc) /\
       dict_get "created_at" m = Some (VTime tm) /\ (tm <= tc)%Z) /\
    (forall k, k <> "updated_at" -> dict_get k c' = dict_get k c).
Proof.
  intros H.
  destruct (send_message_ok_inv _ _ _ H) as [oid [c [P [F [I N]]]]].
  rewrite (send_message_accepts e p db P F I N) in H.
  inversion H; subst r db'; clear H.
  exists oid, c, (dict_set "updated_at" (VTime (env_now e)) c),
    (new_document e (dump_message p)).
  cbn [messages chats].
  repeat split; trivial.
  - apply find_one_app_new; trivial. apply new_document_id.
  - unfold touch_chat. rewrite find_one_update by discriminate. now rewrite F.
  - now rewrite dict_get_set_same.
  - exists (env_now e), (env_now e). rewrite dict_get_set_same.
    repeat split. lia.
  - intros k K. now apply dict_get_set_other.
Qed.

Definition msg_hello : CreateMessage :=
  mkCreateMessage (Oid.str oid_a) "ann" "hello" "text".

Lemma send_message_touches_chat_witness :
  let db' := snd (send_message env_b msg_hello store_one_chat) in
  fst (send_message env_b msg_hello store_one_chat)
    = Ok (serialize (Some (new_document env_b (dump_message msg_hello)))) /\
  exists c' m,
    find_one (chats db') (q_id (VOid oid_a)) = Some c' /\
    find_one (messages db') (q_id (VOid oid_b)) = Some m /\
    dict_get "updated_at" c' = dict_get "created_at" m.
Proof.
  split; [reflexivity |].
  destruct (send_message_touches_chat env_b msg_hello store_one_chat
              (db' := snd (send_message env_b msg_hello store_one_chat))
              (r := serialize (Some (new_document env_b (dump_message msg_hello))))
              eq_refl)
    as [oid [c [c' [m [P [_ [_ [Fm [_ [Fc [U _]]]]]]]]]]].
  exists c', m.
  assert (O : oid_a = oid).
  { apply (f_equal (fun x => match x with Some y => y | None => oid_a end)) in P.
    exact P. }
  subst oid.
  split; [exact Fc | split; [exact Fm | exact U]].
Defined.

(** ** Creating a chat *)

Lemma create_chat_accepts (e : env) (p : CreateChat) (db : store) :
  ((List.length (participants p) <? 2)%nat && negb (is_group p)) = false ->
  find_one (chats db) (q_id (VOid (env_oid e))) = None ->
  create_chat e p db =
  (Ok (serialize (Some (new_document e (dump_chat p)))),
   mkStore (users db) (chats db ++ [new_document e (dump_chat p)]) (messages db)).
Proof.
  intros G N. run_handler. rewrite G.
  rewrite (create_document_fresh e chat (dump_chat p) db N).
  rewrite ObjectId_of_str; cbn [q_oid]. cbn [coll set_coll chats].
  rewrite (find_one_app_new _ _ _ N (new_document_id e (dump_chat p))).
  reflexivity.
Qed.

Lemma serialize_new_chat (e : env) (p : CreateChat) :
  serialize (Some (new_document e (dump_chat p))) =
  Some [("id", VStr (Oid.str (env_oid e)));
        ("participants", VList (map VStr (participants p)));
        ("title", opt_str (title p)); ("is_group", VBool (is_group p));
        ("created_at", VTime (env_now e)); ("updated_at", VTime (env_now e))].
Proof. destruct p as [ps [t |] g]; reflexivity. Qed.

(** C3: a payload with [is_group] false and fewer than two participants
    is refused with 400 and the store is unchanged; a payload with
    [is_group] true and at least one participant is stored (under the
    identifier the driver generated, which no stored chat carries) and the
    normalized chat is returned. *)
Theorem create_chat_rule (e : env) (p : CreateChat) (db : store) :
  (is_group p = false -> (List.length (participants p) < 2)%nat ->
   create_chat e p db =
   (HTTPException 400 "A direct chat requires 2 participants", db)) /\
  (is_group p = true -> participants p <> [] ->
   find_one (chats db) (q_id (VOid (env_oid e))) = None ->
   exists doc db',
     create_chat e p db = (Ok (Some doc), db') /\
     chats db' = (chats db ++ [new_document e (dump_chat p)])%list /\
     dict_get "id" doc = Some (VStr (Oid.str (env_oid e))) /\
     dict_get "participants" doc = Some (VList (map VStr (participants p))) /\
     dict_get "is_group" doc = Some (VBool true)).
Proof.
  split.
  - intros G L. run_handler. rewrite G.
    apply Nat.ltb_lt in L. now rewrite L.
  - intros G _ N.
    eexists. eexists. split.
    + rewrite create_chat_accepts; trivial.
      * rewrite serialize_new_chat. reflexivity.
      * rewrite G. apply andb_false_r.
    + cbn [chats]. rewrite G. repeat split.
Qed.

Lemma create_chat_rule_witness :
  create_chat env_a (mkCreateChat ["ann"] None false) empty_store
    = (HTTPException 400 "A direct chat requires 2 participants", empty_store) /\
  exists doc db',
    create_chat env_a (mkCreateChat ["ann"] (Some "solo") true) empty_store
      = (Ok (Some doc), db') /\
    dict_get "participants" doc = Some (VList [VStr "ann"]).
Proof.
  split.
  - apply (proj1 (create_chat_rule env_a (mkCreateChat ["ann"] None false)
                    empty_store)).
    + reflexivity.
    + simpl. lia.
  - destruct (proj2 (create_chat_rule env_a
                       (mkCreateChat ["ann"] (Some "solo") true) empty_store)
                    eq_refl ltac:(discriminate) eq_refl)
      as [doc [db' [H [_ [_ [G _]]]]]].
    exists doc, db'. split; [exact H | exact G].
Defined.

(** C6, as stated, fails: a group chat with an empty [participants] list
    passes validation and is created. *)
Lemma empty_group_chat_is_created :
  let body := [("participants", VList []); ("is_group", VBool true)] in
  Validate.create_chat body = Some (mkCreateChat [] None true) /\
  fst (post_chats env_a body empty_store) =
    Ok (Some [("id", VStr (Oid.str oid_a)); ("participants", VList []);
              ("title", VNone); ("is_group", VBool true);
              ("created_at", VTime (env_now env_a));
              ("updated_at", VTime (env_now env_a))]) /\
  status_code_of (fst (post_chats env_a body empty_store)) = 200%Z /\
  List.length (chats (snd (post_chats env_a body empty_store))) = 1%nat.
Proof. vm_compute. repeat split. Qed.

(** C6 (amended): [participants] is required, and may be empty.  A body
    without it fails validation (422) and nothing is stored; the empty list
    passes validation; with it, creation fails with 400 when [is_group] is
    false and succeeds, storing the chat, when [is_group] is true. *)
Theorem create_chat_empty_participants (e : env) (db : store) :
  (forall body, dict_get "participants" body = None ->
     post_chats e body db = (RequestValidationError, db)) /\
  (forall t g,
     Validate.create_chat
       [("participants", VList []); ("title", opt_str t); ("is_group", VBool g)]
     = Some (mkCreateChat [] t g)) /\
  (forall p, participants p = [] -> is_group p = false ->
     create_chat e p db =
     (HTTPException 400 "A direct chat requires 2 participants", db)) /\
  (forall p, participants p = [] -> is_group p = true ->
     find_one (chats db) (q_id (VOid (env_oid e))) = None ->
     create_chat e p db =
     (Ok (serialize (Some (new_document e (dump_chat p)))),
      mkStore (users db) (chats db ++ [new_document e (dump_chat p)])
        (messages db))).
Proof.
  repeat split.
  - intros body H. unfold post_chats, Validate.create_chat, Validate.required.
    now rewrite H.
  - intros [t |] g; reflexivity.
  - intros p E G. run_handler. now rewrite E, G.
  - intros p E G N. apply create_chat_accepts; trivial.
    rewrite G. apply andb_false_r.
Qed.

Lemma create_chat_empty_participants_witness :
  post_chats env_a [("title", VStr "no members")] empty_store
    = (RequestValidationError, empty_store) /\
  create_chat env_a (mkCreateChat [] None false) empty_store
    = (HTTPException 400 "A direct chat requires 2 participants", empty_store) /\
  fst (create_chat env_a (mkCreateChat [] None true) empty_store)
    = Ok (serialize (Some (new_document env_a (dump_chat (mkCreateChat [] None true))))).
Proof.
  destruct (create_chat_empty_participants env_a empty_store)
    as [A [_ [B C]]].
  split; [apply A; reflexivity |].
  split; [apply B; reflexivity |].
  rewrite (C (mkCreateChat [] None true)); reflexivity.
Defined.

(** ** Sending a message: the request model *)

(** C7, as stated, fails: a body whose [content] is the empty string
    passes validation, and the message is stored. *)
Lemma empty_content_is_stored :
  let body := [("chat_id", VStr (Oid.str oid_a)); ("sender_id", VStr "ann");
               ("content", VStr "")] in
  Validate.create_message body
    = Some (mkCreateMessage (Oid.str oid_a) "ann" "" "text") /\
  status_code_of (fst (post_messages env_b body store_one_chat)) = 200%Z /\
  messages store_one_chat = [] /\
  List.length (messages (snd (post_messages env_b body store_one_chat))) = 1%nat /\
  option_map (dict_get "content")
    (find_one (messages (snd (post_messages env_b body store_one_chat)))
       (q_id (VOid oid_b)))
    = Some (Some (VStr "")).
Proof. vm_compute. repeat split. Qed.

Definition message_body (c s t ty : string) : dict :=
  [("chat_id", VStr c); ("sender_id", VStr s); ("content", VStr t);
   ("type", VStr ty)].

(** C7 (amended): [content] is required and must be a string, which may
    be empty.  A body without [content], or with a [content] that is not a
    string, fails validation (422) and the store is unchanged; a body whose
    [content] is the empty string passes validation, is handled by
    [send_message] like any other, and is stored when the chat exists, the
    sender participates and the generated identifier is new. *)
Theorem send_message_content_rule (e : env) (db : store) :
  (forall body, dict_get "content" body = None ->
     post_messages e body db = (RequestValidationError, db)) /\
  (forall body v, dict_get "content" body = Some v -> (forall s, v <> VStr s) ->
     post_messages e body db = (RequestValidationError, db)) /\
  status_code_of (@RequestValidationError (option dict)) = 422%Z /\
  (forall c s ty,
     Validate.create_message (message_body c s "" ty)
       = Some (mkCreateMessage c s "" ty) /\
     post_messages e (message_body c s "" ty) db
       = send_message e (mkCreateMessage c s "" ty) db) /\
  (forall c s ty oid chat_doc,
     Oid.parse c = Some oid ->
     find_one (chats db) (q_id (VOid oid)) = Some chat_doc ->
     py_in s (get_default "participants" (VList []) chat_doc) = Ok true ->
     find_one (messages db) (q_id (VOid (env_oid e))) = None ->
     exists r db',
       post_messages e (message_body c s "" ty) db = (Ok r, db') /\
       messages db' =
       (messages db ++ [new_document e (dump_message (mkCreateMessage c s "" ty))])%list).
Proof.
  split; [| split; [| split; [| split]]].
  - intros body H.
    unfold post_messages, Validate.create_message, Validate.required.
    rewrite H.
    destruct (dict_get "chat_id" body) as [[] |];
      destruct (dict_get "sender_id" body) as [[] |]; reflexivity.
  - intros body v H N.
    unfold post_messages, Validate.create_message, Validate.required.
    rewrite H.
    assert (E : Validate.v_str v = None).
    { destruct v; trivial. exfalso. now apply (N s). }
    rewrite E.
    destruct (dict_get "chat_id" body) as [[] |];
      destruct (dict_get "sender_id" body) as [[] |]; reflexivity.
  - reflexivity.
  - intros c s ty. split; reflexivity.
  - intros c s ty oid chat_doc P F I N.
    eexists. eexists. split.
    + change (post_messages e (message_body c s "" ty) db)
        with (send_message e (mkCreateMessage c s "" ty) db).
      apply (send_message_accepts e (mkCreateMessage c s "" ty) db P F I N).
    + reflexivity.
Qed.

Lemma send_message_content_rule_witness :
  post_messages env_b [("chat_id", VStr (Oid.str oid_a)); ("sender_id", VStr "ann")]
    store_one_chat = (RequestValidationError, store_one_chat) /\
  post_messages env_b
    [("chat_id", VStr (Oid.str oid_a)); ("sender_id", VStr "ann");
     ("content", VInt 7)]
    store_one_chat = (RequestValidationError, store_one_chat) /\
  exists r db',
    post_messages env_b (message_body (Oid.str oid_a) "ann" "" "text")
      store_one_chat = (Ok r, db') /\
    List.length (messages db') = 1%nat.
Proof.
  destruct (send_message_content_rule env_b store_one_chat)
    as [A [B [_ [_ C]]]].
  split; [apply A; reflexivity |].
  split; [apply (B _ (VInt 7)); [reflexivity | discriminate] |].
  destruct (C (Oid.str oid_a) "ann" "text" oid_a
              (new_document env_a (dump_chat (mkCreateChat ["ann"; "bob"] None false)))
              eq_refl eq_refl eq_refl eq_refl)
    as [r [db' [H M]]].
  exists r, db'. split; [exact H |].
  rewrite M. reflexivity.
Defined.

(** ** Listing users *)

(** C9: an empty search string is handled as no search string: the
    filter is the empty one and every user document is returned,
    normalized, in the store's order. *)
Theorem list_users_empty_filter
    (regex_search : string -> string -> string -> bool) (db : store) :
  list_users regex_search (Some "") db = list_users regex_search None db /\
  list_users regex_search None db
    = (Ok (map (fun d => serialize (Some d)) (users db)), db).
Proof.
  split; [reflexivity |].
  run_handler.
  assert (E : filter q_all (users db) = users db).
  { induction (users db) as [| d r IH]; simpl; [trivial | now rewrite IH]. }
  now rewrite E.
Qed.

(** ** Sorting by a timestamp *)

Section SortedByTime.
Variable A : Type.
Variable key : A -> value.

Definition timed (x : A) : Prop := exists t, key x = VTime t.

(** [key a] and [key b] are timestamps, the first not after the second. *)
Definition key_le (a b : A) : Prop :=
  exists ta tb, key a = VTime ta /\ key b = VTime tb /\ (ta <= tb)%Z.

Lemma key_le_trans a b c : key_le a b -> key_le b c -> key_le a c.
Proof.
  intros [ta [tb [Ea [Eb L1]]]] [tb' [tc [Eb' [Ec L2]]]].
  rewrite Eb in Eb'. inversion Eb'; subst tb'.
  exists ta, tc. repeat split; trivial. lia.
Qed.

Lemma insert_sorted_timed (x : A) (l : list A) :
  timed x -> Forall timed l -> StronglySorted key_le l ->
  exists l',
    insert_sorted key x l = Ok l' /\ Permutation (x :: l) l' /\
    StronglySorted key_le l'.
Proof.
  intros [tx Ex]. induction l as [| y r IH]; intros T S.
  - exists [x]. repeat split; trivial. repeat constructor.
  - inversion T as [| ? ? [ty Ey] T']; subst.
    inversion S as [| ? ? S' Fy]; subst.
    cbn [insert_sorted]. rewrite Ex, Ey. cbn [py_lt bind_outcome].
    destruct (Z.ltb_spec ty tx) as [L | L].
    + destruct (IH T' S') as [r' [E [P S'']]].
      rewrite E. cbn [bind_outcome].
      exists (y :: r'). repeat split.
      * rewrite perm_swap. now constructor.
      * constructor; trivial.
        apply (Permutation_Forall P). constructor; trivial.
        exists ty, tx. repeat split; trivial. lia.
    + exists (x :: y :: r). repeat split; trivial.
      constructor; trivial.
      assert (Lxy : key_le x y) by (exists tx, ty; repeat split; trivial).
      constructor; trivial.
      eapply Forall_impl; [| exact Fy].
      intros z. now apply key_le_trans.
Qed.

Lemma sort_asc_timed (l : list A) :
  Forall timed l ->
  exists l',
    sort_asc key l = Ok l' /\ Permutation l l' /\ StronglySorted key_le l'.
Proof.
  induction l as [| x r IH]; intros T.
  - exists []. repeat split; constructor.
  - inversion T as [| ? ? Tx Tr]; subst.
    destruct (IH Tr) as [r' [E [P S]]].
    cbn [sort_asc]. rewrite E. cbn [bind_outcome].
    destruct (insert_sorted_timed (x := x) (l := r') Tx) as [l' [E' [P' S']]];
      trivial.
    { apply (Permutation_Forall P Tr). }
    exists l'. repeat split; trivial.
    now rewrite <- P', <- P.
Qed.
End SortedByTime.

Lemma StronglySorted_snoc {A} (R : A -> A -> Prop) l a :
  StronglySorted R l -> Forall (fun x => R x a) l -> StronglySorted R (l ++ [a]).
Proof.
  induction 1 as [| x r S IH F]; intros H; simpl.
  - repeat constructor.
  - inversion H; subst. constructor; [now apply IH |].
    apply Forall_app. split; trivial. now constructor.
Qed.

Lemma StronglySorted_rev {A} (R : A -> A -> Prop) l :
  StronglySorted R l -> StronglySorted (fun a b => R b a) (rev l).
Proof.
  induction 1 as [| x r S IH F]; simpl; [constructor |].
  apply StronglySorted_snoc; trivial.
  now apply Forall_rev.
Qed.

Lemma StronglySorted_within {A} (R R' : A -> A -> Prop) l :
  (forall a b, In a l -> In b l -> R a b -> R' a b) ->
  StronglySorted R l -> StronglySorted R' l.
Proof.
  intros H S. induction S as [| x r S IH F]; constructor.
  - apply IH. intros a b Ia Ib. apply H; now right.
  - apply Forall_forall. intros b Ib. rewrite Forall_forall in F.
    apply H; [now left | now right | now apply F].
Qed.

Lemma StronglySorted_map {A B} (f : A -> B) (R : B -> B -> Prop) l :
  StronglySorted (fun a b => R (f a) (f b)) l -> StronglySorted R (map f l).
Proof.
  induction 1 as [| x r S IH F]; simpl; constructor; trivial.
  now apply Forall_map.
Qed.

(** [sorted] on documents that all carry a timestamp under the key. *)
Lemma sorted_timed {A} (key : A -> value) (reverse : bool) (l : list A) :
  Forall (timed key) l ->
  exists l',
    sorted key reverse l = Ok l' /\ Permutation l l' /\
    StronglySorted
      (fun a b => if reverse then key_le key b a else key_le key a b) l'.
Proof.
  intros T. unfold sorted. destruct reverse.
  - destruct (sort_asc_timed (key := key) (l := rev l)) as [r [E [P S]]].
    { now apply Forall_rev. }
    rewrite E. cbn [bind_outcome]. exists (rev r). repeat split.
    + rewrite <- (Permutation_rev r), <- P. apply Permutation_rev.
    + now apply StronglySorted_rev.
  - now apply sort_asc_timed.
Qed.

(** ** The stored documents carry their timestamps *)

(** A dict with distinct keys and a timestamp under [k]. *)
Definition stamped (k : string) (d : dict) : Prop :=
  dict_wf d /\ exists t, dict_get k d = Some (VTime t).

Definition store_ok (db : store) : Prop :=
  Forall (stamped "updated_at") (chats db) /\
  Forall (stamped "created_at") (messages db).

(** The stores the service can be in: it starts empty, and only the
    three writing handlers change it. *)
Inductive reachable : store -> Prop :=
| reach_empty : reachable empty_store
| reach_create_user e p db :
    reachable db -> reachable (snd (create_user e p db))
| reach_create_chat e p db :
    reachable db -> reachable (snd (create_chat e p db))
| reach_send_message e p db :
    reachable db -> reachable (snd (send_message e p db)).

Lemma new_chat_stamped e p k :
  k = "updated_at" \/ k = "created_at" ->
  stamped k (new_document e (dump_chat p)).
Proof.
  intros K. split.
  - unfold dict_wf. simpl. repeat constructor; simpl; intuition discriminate.
  - exists (env_now e). destruct K as [-> | ->]; reflexivity.
Qed.

Lemma new_message_stamped e p k :
  k = "updated_at" \/ k = "created_at" ->
  stamped k (new_document e (dump_message p)).
Proof.
  intros K. split.
  - unfold dict_wf. simpl. repeat constructor; simpl; intuition discriminate.
  - exists (env_now e). destruct K as [-> | ->]; reflexivity.
Qed.

Lemma update_one_stamped docs q k t :
  Forall (stamped k) docs -> Forall (stamped k) (update_one docs q k (VTime t)).
Proof.
  induction 1 as [| d r [W T] F IH]; simpl; [constructor |].
  destruct (q d); constructor; trivial.
  - split; [now apply dict_set_wf |].
    exists t. apply dict_get_set_same.
  - now split.
Qed.

Lemma create_user_store e p db :
  chats (snd (create_user e p db)) = chats db /\
  messages (snd (create_user e p db)) = messages db.
Proof.
  run_handler. unfold create_document. cbn [coll set_coll].
  destruct (existsb (q_id (VOid (env_oid e))) (users db)); [split; reflexivity |].
  rewrite ObjectId_of_str; cbn [q_oid]. split; reflexivity.
Qed.

Lemma create_chat_store e p db :
  snd (create_chat e p db) = db \/
  snd (create_chat e p db) =
  mkStore (users db) (chats db ++ [new_document e (dump_chat p)]) (messages db).
Proof.
  destruct ((List.length (participants p) <? 2)%nat && negb (is_group p)) eqn:G.
  - left. run_handler. now rewrite G.
  - destruct (find_one (chats db) (q_id (VOid (env_oid e)))) as [d |] eqn:N.
    + left. run_handler. rewrite G.
      now rewrite (create_document_duplicate e chat (dump_chat p) db N).
    + right. now rewrite (create_chat_accepts e p db G N).
Qed.

Lemma send_message_store e p db :
  snd (send_message e p db) = db \/
  exists oid,
    snd (send_message e p db) =
    mkStore (users db) (touch_chat db oid (VTime (env_now e)))
      (messages db ++ [new_document e (dump_message p)]).
Proof.
  destruct (Oid.parse (chat_id p)) as [oid |] eqn:P.
  2:{ left. destruct (send_message_unparsed e p db P) as [E | E];
      now rewrite E. }
  destruct (find_one (chats db) (q_id (VOid oid))) as [c |] eqn:F.
  2:{ left. run_handler. parsed P; now rewrite F. }
  destruct (py_in (sender_id p) (get_default "participants" (VList []) c))
    as [[|] | | |] eqn:I;
    try (left; run_handler; parsed P; now rewrite F, (found_not_falsy _ _ F), I).
  destruct (find_one (messages db) (q_id (VOid (env_oid e)))) as [d |] eqn:N.
  - left. run_handler. parsed P; rewrite F, (found_not_falsy _ _ F), I. cbn [negb].
    now rewrite (create_document_duplicate e message (dump_message p) db N).
  - right. exists oid. now rewrite (send_message_accepts e p db P F I N).
Qed.

(** [store_ok] is an invariant of the service. *)
Lemma reachable_ok db : reachable db -> store_ok db.
Proof.
  induction 1 as [| e p db R [C Ms] | e p db R [C Ms] | e p db R [C Ms]].
  - split; constructor.
  - destruct (create_user_store e p db) as [Ec Em].
    unfold store_ok. now rewrite Ec, Em.
  - destruct (create_chat_store e p db) as [E | E]; rewrite E.
    + now split.
    + split; cbn [chats messages]; trivial.
      apply Forall_app. split; trivial.
      constructor; [| constructor]. apply new_chat_stamped. now left.
  - destruct (send_message_store e p db) as [E | [oid E]]; rewrite E.
    + now split.
    + split; cbn [chats messages].
      * unfold touch_chat. now apply update_one_stamped.
      * apply Forall_app. split; trivial.
        constructor; [| constructor]. apply new_message_stamped. now right.
Qed.

(** ** Listing chats and messages *)

(** The timestamp a returned record shows under [k]. *)
Definition stamp (k : string) (r : option dict) : option Z :=
  match r with
  | Some d =>
      match dict_get k d with
      | Some (VTime t) => Some t
      | _ => None
      end
  | None => None
  end.

(** Both records show a timestamp under [k], the first not after the
    second. *)
Definition stamp_le (k : string) (a b : option dict) : Prop :=
  exists ta tb, stamp k a = Some ta /\ stamp k b = Some tb /\ (ta <= tb)%Z.

Lemma stamp_serialize k d t :
  dict_wf d -> k <> "_id" -> k <> "id" ->
  dict_get k d = Some (VTime t) -> stamp k (serialize (Some d)) = Some t.
Proof.
  intros W N1 N2 G. rewrite serialize_some. unfold stamp.
  rewrite serialize_items_get by trivial. now rewrite G.
Qed.

Lemma stamped_timed k d : stamped k d -> timed (get k) d.
Proof. intros [_ [t G]]. exists t. unfold get. now rewrite G. Qed.

Lemma key_le_stamp_le k a b :
  k <> "_id" -> k <> "id" -> dict_wf a -> dict_wf b ->
  key_le (get k) a b -> stamp_le k (serialize (Some a)) (serialize (Some b)).
Proof.
  intros N1 N2 Wa Wb [ta [tb [Ea [Eb L]]]].
  exists ta, tb. unfold get in Ea, Eb.
  destruct (dict_get k a) as [va |] eqn:Ga; [| discriminate].
  destruct (dict_get k b) as [vb |] eqn:Gb; [| discriminate].
  subst va vb. repeat split; trivial; now apply stamp_serialize.
Qed.

(** What a listing returns for the documents [docs] that match, when all
    of them are stamped under the sort key. *)
Lemma listing_sorted k reverse (docs : list dict) :
  k <> "_id" -> k <> "id" -> Forall (stamped k) docs ->
  exists l,
    sorted (get k) reverse docs = Ok l /\ Permutation docs l /\
    StronglySorted
      (fun a b => if reverse then stamp_le k b a else stamp_le k a b)
      (map (fun d => serialize (Some d)) l).
Proof.
  intros N1 N2 F.
  destruct (sorted_timed (key := get k) reverse (l := docs)) as [l [E [P S]]].
  { eapply Forall_impl; [| exact F]. intros d. apply stamped_timed. }
  exists l. repeat split; trivial.
  apply StronglySorted_map.
  assert (W : forall d, In d l -> dict_wf d).
  { intros d I. apply (Permutation_in _ (Permutation_sym P)) in I.
    rewrite Forall_forall in F. now apply F. }
  eapply StronglySorted_within; [| exact S].
  intros a b Ia Ib. cbv beta.
  destruct reverse; apply key_le_stamp_le; auto.
Qed.

Lemma filter_stamped k q docs :
  Forall (stamped k) docs -> Forall (stamped k) (filter q docs).
Proof.
  intros F. apply Forall_forall. intros d I. apply filter_In in I.
  rewrite Forall_forall in F. now apply F.
Qed.


(** A store reached by creating two chats and sending two messages into
    the first one; the second chat never received a message. *)
Definition oid_d : ObjectId := exist _ "65f1a2b3c4d5e6f708192a3e" eq_refl.
Definition env_d : env := mkEnv 1700000002000 oid_d.

Definition store_busy : store :=
  snd (send_message env_d (mkCreateMessage (Oid.str oid_a) "bob" "hey" "text")
    (snd (send_message env_b msg_hello
      (snd (create_chat env_c (mkCreateChat ["ann"] (Some "notes") true)
        store_one_chat))))).

Lemma store_busy_reachable : reachable store_busy.
Proof.
  unfold store_busy, store_one_chat.
  apply reach_send_message, reach_send_message, reach_create_chat,
    reach_create_chat, reach_empty.
Qed.


(* ================================================================= *)
(** * Further properties of the module *)

(** ** The normalizer on arbitrary documents *)

(** A field that is not named [_id] and holds no native identifier. *)
Definition plain_field (kv : string * value) : Prop :=
  fst kv <> "_id" /\ is_ObjectId (snd kv) = false.

Lemma dict_set_Forall (P : string * value -> Prop) k v d :
  P (k, v) -> Forall P d -> Forall P (dict_set k v d).
Proof.
  intros Pk F. induction F as [| [k' v'] r Px F IH]; simpl.
  - repeat constructor; trivial.
  - destruct (String.eqb_spec k k') as [<- | N]; constructor; trivial.
Qed.

Lemma oid_str_plain v : is_ObjectId (oid_str v) = false.
Proof. now destruct v. Qed.

Lemma renamed_not_id k : renamed k <> "_id".
Proof.
  unfold renamed. destruct (String.eqb_spec k "_id"); [discriminate | trivial].
Qed.

Lemma serialize_fold_plain d : forall acc,
  dict_wf acc -> Forall plain_field acc ->
  dict_wf (fold_left serialize_step d acc) /\
  Forall plain_field (fold_left serialize_step d acc).
Proof.
  induction d as [| [k v] r IH]; intros acc W F; cbn [fold_left].
  - now split.
  - rewrite serialize_step_set. apply IH.
    + now apply dict_set_wf.
    + apply dict_set_Forall; trivial.
      split; [apply renamed_not_id | apply oid_str_plain].
Qed.

Lemma serialize_items_plain d :
  dict_wf (serialize_items d) /\ Forall plain_field (serialize_items d).
Proof.
  apply serialize_fold_plain; [constructor | constructor].
Qed.

Lemma plain_keys d : Forall plain_field d -> ~ In "_id" (keys d).
Proof.
  intros F I. unfold keys in I. apply in_map_iff in I.
  destruct I as [kv [E I]]. rewrite Forall_forall in F.
  destruct (F kv I) as [N _]. contradiction.
Qed.

Lemma dict_get_In k v d : dict_get k d = Some v -> In (k, v) d.
Proof.
  induction d as [| [k' v'] r IH]; simpl; [discriminate |].
  destruct (String.eqb_spec k k') as [-> | N].
  - intros E. inversion E. now left.
  - intros E. right. now apply IH.
Qed.

(** Whatever the document, also one on which [_id] and [id] collide: the
    record [serialize] returns has distinct field names, no field [_id],
    and no native identifier as the value of a field. *)
Theorem serialize_output_plain (d : dict) :
  exists out,
    serialize (Some d) = Some out /\
    dict_wf out /\ dict_get "_id" out = None /\
    (forall k v, dict_get k out = Some v -> is_ObjectId v = false).
Proof.
  exists (serialize_items d).
  destruct (serialize_items_plain d) as [W F].
  repeat split; trivial.
  - apply serialize_some.
  - apply dict_get_none. now apply plain_keys.
  - intros k v G. apply dict_get_In in G. rewrite Forall_forall in F.
    now destruct (F _ G).
Qed.

Lemma normalized_plain d : Forall plain_field d -> map normalized d = d.
Proof.
  induction 1 as [| [k v] r [N P] F IH]; simpl; trivial.
  simpl in N, P. rewrite IH. unfold normalized, renamed. simpl.
  apply String.eqb_neq in N. rewrite N. now rewrite oid_str_other.
Qed.

Lemma serialize_items_fixed d :
  dict_wf d -> Forall plain_field d -> serialize_items d = d.
Proof.
  intros W F. unfold serialize_items.
  rewrite serialize_fold_fresh.
  - simpl. now apply normalized_plain.
  - simpl. apply renamed_keys_nodup; trivial.
    intros [I _]. now apply (plain_keys F).
Qed.

(** Normalizing twice is normalizing once, on every input. *)
Theorem serialize_idempotent (doc : option dict) :
  serialize (serialize doc) = serialize doc.
Proof.
  destruct doc as [d |]; [| reflexivity].
  rewrite (serialize_some d), serialize_some.
  destruct (serialize_items_plain d) as [W F].
  now rewrite serialize_items_fixed.
Qed.

(** ** Creating a user *)

Lemma create_user_accepts (e : env) (p : CreateUser) (db : store) :
  find_one (users db) (q_id (VOid (env_oid e))) = None ->
  create_user e p db =
  (Ok (serialize (Some (new_document e (dump_user p)))),
   mkStore (users db ++ [new_document e (dump_user p)]) (chats db) (messages db)).
Proof.
  intros N. run_handler.
  rewrite (create_document_fresh e user (dump_user p) db N).
  rewrite ObjectId_of_str; cbn [q_oid]. cbn [coll set_coll users].
  rewrite (find_one_app_new _ _ _ N (new_document_id e (dump_user p))).
  reflexivity.
Qed.

Lemma oid_str_length (o : ObjectId) : String.length (Oid.str o) = 24%nat.
Proof.
  destruct o as [h pf]. unfold Oid.str. simpl.
  unfold Oid.is_oid_hex in pf. apply andb_true_iff in pf.
  destruct pf as [L _]. now apply Nat.eqb_eq in L.
Qed.

Lemma serialize_new_user (e : env) (p : CreateUser) :
  serialize (Some (new_document e (dump_user p))) =
  Some [("id", VStr (Oid.str (env_oid e)));
        ("name", VStr (name p)); ("avatar", opt_str (avatar p));
        ("status", opt_str (status p));
        ("created_at", VTime (env_now e)); ("updated_at", VTime (env_now e))].
Proof. destruct p as [n [a |] [s |]]; reflexivity. Qed.

(** [create_user] refuses no payload: whatever users are stored (also one
    of the same name), when the generated identifier is new one user more
    is stored, the others stay, and the record returned shows the
    identifier as a 24-character string under [id] and the three fields of
    the payload as given; it has no [_id]. *)
Theorem create_user_returns_record (e : env) (p : CreateUser) (db : store) :
  find_one (users db) (q_id (VOid (env_oid e))) = None ->
  exists doc db',
    create_user e p db = (Ok (Some doc), db') /\
    dict_get "id" doc = Some (VStr (Oid.str (env_oid e))) /\
    String.length (Oid.str (env_oid e)) = 24%nat /\
    dict_get "_id" doc = None /\
    dict_get "name" doc = Some (VStr (name p)) /\
    dict_get "avatar" doc = Some (opt_str (avatar p)) /\
    dict_get "status" doc = Some (opt_str (status p)) /\
    List.length (users db') = S (List.length (users db)) /\
    (forall d, In d (users db) -> In d (users db')) /\
    chats db' = chats db /\ messages db' = messages db.
Proof.
  intros N. eexists. eexists. split.
  - rewrite (create_user_accepts e p db N), serialize_new_user. reflexivity.
  - cbn [users chats messages]. repeat split.
    + apply oid_str_length.
    + rewrite length_app. simpl. lia.
    + intros d I. apply in_or_app. now left.
Qed.

Definition user_ann : CreateUser := mkCreateUser "Ann" None (Some "busy").

(** The store after a user named Ann was created. *)
Definition store_one_user : store := snd (create_user env_a user_ann empty_store).

Lemma create_user_returns_record_witness :
  find_one (users store_one_user) (q_id (VOid (env_oid env_b))) = None /\
  exists doc db',
    create_user env_b user_ann store_one_user = (Ok (Some doc), db') /\
    dict_get "id" doc = Some (VStr "65f1a2b3c4d5e6f708192a3c") /\
    dict_get "name" doc = Some (VStr "Ann") /\
    List.length (users db') = 2%nat.
Proof.
  split; [reflexivity |].
  destruct (create_user_returns_record env_b user_ann store_one_user eq_refl)
    as [doc [db' [H [I [_ [_ [Nm [_ [_ [L _]]]]]]]]]].
  exists doc, db'. repeat split; trivial.
Defined.

(** The request model of a user: [name] is required and must be a string
    (the empty string included); a missing [avatar] is null and a missing
    [status] is the default text, while an explicit null [status] stays
    null.  A body that fails the model is answered 422 and stores
    nothing. *)
Theorem post_users_validation (e : env) (db : store) (body : dict) :
  (dict_get "name" body = None ->
   post_users e body db = (RequestValidationError, db)) /\
  (forall v, dict_get "name" body = Some v -> (forall s, v <> VStr s) ->
   post_users e body db = (RequestValidationError, db)) /\
  (forall n, dict_get "name" body = Some (VStr n) ->
   dict_get "avatar" body = None ->
   (dict_get "status" body = None ->
    post_users e body db =
    create_user e (mkCreateUser n None (Some "Hey there! I am using VibeChat")) db) /\
   (dict_get "status" body = Some VNone ->
    post_users e body db = create_user e (mkCreateUser n None None) db)).
Proof.
  unfold post_users, Validate.create_user, Validate.required, Validate.defaulted.
  split; [| split].
  - intros H. now rewrite H.
  - intros v H N. rewrite H.
    destruct v; try reflexivity. exfalso. now apply (N s).
  - intros n H A. rewrite H, A. split; intros S; rewrite S; reflexivity.
Qed.

Lemma post_users_validation_witness :
  post_users env_a [("avatar", VStr "a.png")] empty_store
    = (RequestValidationError, empty_store) /\
  post_users env_a [("name", VInt 7)] empty_store
    = (RequestValidationError, empty_store) /\
  post_users env_a [("name", VStr "")] empty_store
    = create_user env_a
        (mkCreateUser "" None (Some "Hey there! I am using VibeChat")) empty_store /\
  post_users env_a [("name", VStr "Ann"); ("status", VNone)] empty_store
    = create_user env_a (mkCreateUser "Ann" None None) empty_store.
Proof.
  split.
  { apply (proj1 (post_users_validation env_a empty_store [("avatar", VStr "a.png")])).
    reflexivity. }
  split.
  { apply (proj1 (proj2 (post_users_validation env_a empty_store [("name", VInt 7)]))
             (VInt 7)); [reflexivity | discriminate]. }
  split.
  - apply (proj2 (proj2 (post_users_validation env_a empty_store [("name", VStr "")]))
             "" eq_refl eq_refl); reflexivity.
  - apply (proj2 (proj2 (post_users_validation env_a empty_store
                           [("name", VStr "Ann"); ("status", VNone)]))
             "Ann" eq_refl eq_refl); reflexivity.
Defined.

(** ** Creating a chat: what is not checked *)

(** With two or more entries in [participants] the chat is created
    whatever [is_group] says: entries are counted, not compared with each
    other or with the stored users.  The record returned lists them as
    given, and one chat more is stored. *)
Theorem create_chat_counts_entries (e : env) (p : CreateChat) (db : store) :
  (2 <= List.length (participants p))%nat ->
  find_one (chats db) (q_id (VOid (env_oid e))) = None ->
  exists doc db',
    create_chat e p db = (Ok (Some doc), db') /\
    dict_get "id" doc = Some (VStr (Oid.str (env_oid e))) /\
    dict_get "participants" doc = Some (VList (map VStr (participants p))) /\
    dict_get "title" doc = Some (opt_str (title p)) /\
    dict_get "is_group" doc = Some (VBool (is_group p)) /\
    List.length (chats db') = S (List.length (chats db)) /\
    (forall d, In d (chats db) -> In d (chats db')).
Proof.
  intros L N. eexists. eexists. split.
  - rewrite create_chat_accepts; trivial.
    + rewrite serialize_new_chat. reflexivity.
    + apply andb_false_iff. left. apply Nat.ltb_ge. exact L.
  - cbn [chats]. repeat split.
    + rewrite length_app. simpl. lia.
    + intros d I. apply in_or_app. now left.
Qed.

Lemma create_chat_counts_entries_witness :
  users empty_store = [] /\
  exists doc db',
    create_chat env_a (mkCreateChat ["ann"; "ann"] None false) empty_store
    = (Ok (Some doc), db') /\
    dict_get "participants" doc = Some (VList [VStr "ann"; VStr "ann"]) /\
    dict_get "is_group" doc = Some (VBool false).
Proof.
  split; [reflexivity |].
  destruct (create_chat_counts_entries env_a
              (mkCreateChat ["ann"; "ann"] None false) empty_store)
    as [doc [db' [H [_ [P [_ [G _]]]]]]].
  - simpl. lia.
  - reflexivity.
  - exists doc, db'. repeat split; trivial.
Defined.

(** ** Writes happen on success only *)

Definition succeeded {A} (r : outcome A) : bool :=
  match r with Ok _ => true | _ => false end.

Lemma create_user_verdict e p db :
  succeeded (fst (create_user e p db)) = true \/ snd (create_user e p db) = db.
Proof.
  destruct (find_one (users db) (q_id (VOid (env_oid e)))) as [d |] eqn:N.
  - right. run_handler.
    now rewrite (create_document_duplicate e user (dump_user p) db N).
  - left. now rewrite (create_user_accepts e p db N).
Qed.

Lemma create_chat_verdict e p db :
  succeeded (fst (create_chat e p db)) = true \/ snd (create_chat e p db) = db.
Proof.
  destruct ((List.length (participants p) <? 2)%nat && negb (is_group p)) eqn:G.
  - right. run_handler. now rewrite G.
  - destruct (find_one (chats db) (q_id (VOid (env_oid e)))) as [d |] eqn:N.
    + right. run_handler. rewrite G.
      now rewrite (create_document_duplicate e chat (dump_chat p) db N).
    + left. now rewrite (create_chat_accepts e p db G N).
Qed.

Lemma send_message_verdict e p db :
  succeeded (fst (send_message e p db)) = true \/ snd (send_message e p db) = db.
Proof.
  destruct (Oid.parse (chat_id p)) as [oid |] eqn:P.
  2:{ right. destruct (send_message_unparsed e p db P) as [E | E];
      now rewrite E. }
  destruct (find_one (chats db) (q_id (VOid oid))) as [c |] eqn:F.
  2:{ right. run_handler. parsed P; now rewrite F. }
  destruct (py_in (sender_id p) (get_default "participants" (VList []) c))
    as [[|] | | |] eqn:I;
    try (right; run_handler; parsed P; now rewrite F, (found_not_falsy _ _ F), I).
  destruct (find_one (messages db) (q_id (VOid (env_oid e)))) as [d |] eqn:N.
  - right. run_handler. parsed P; rewrite F, (found_not_falsy _ _ F), I. cbn [negb].
    now rewrite (create_document_duplicate e message (dump_message p) db N).
  - left. now rewrite (send_message_accepts e p db P F I N).
Qed.

(** A writing handler that does not answer normally, whether with an
    HTTP error or with an exception, leaves the store as it was: in
    particular [send_message] never stores a message without updating the
    chat. *)
Theorem failed_write_changes_nothing (e : env) (db : store) :
  (forall p, succeeded (fst (create_user e p db)) = false ->
     snd (create_user e p db) = db) /\
  (forall p, succeeded (fst (create_chat e p db)) = false ->
     snd (create_chat e p db) = db) /\
  (forall p, succeeded (fst (send_message e p db)) = false ->
     snd (send_message e p db) = db).
Proof.
  repeat split; intros p H.
  - destruct (create_user_verdict e p db); congruence.
  - destruct (create_chat_verdict e p db); congruence.
  - destruct (send_message_verdict e p db); congruence.
Qed.

Lemma failed_write_changes_nothing_witness :
  snd (create_user env_a user_ann store_one_user) = store_one_user /\
  snd (create_chat env_b (mkCreateChat ["ann"] None false) store_one_chat)
    = store_one_chat /\
  snd (send_message env_b (mkCreateMessage (Oid.str oid_a) "eve" "hi" "text")
         store_one_chat) = store_one_chat.
Proof.
  split.
  { apply (proj1 (failed_write_changes_nothing env_a store_one_user)). reflexivity. }
  split.
  { apply (proj1 (proj2 (failed_write_changes_nothing env_b store_one_chat))).
    reflexivity. }
  apply (proj2 (proj2 (failed_write_changes_nothing env_b store_one_chat))).
  reflexivity.
Defined.

(** ** Listings only read *)

(** The three listing handlers return the store they were given, whatever
    they answer, and [list_users], which sorts nothing, always answers
    normally. *)
Theorem listings_read_only
    (regex_search : string -> string -> string -> bool) (db : store) :
  (forall q, snd (list_users regex_search q db) = db /\
             succeeded (fst (list_users regex_search q db)) = true) /\
  (forall user_id, snd (list_chats user_id db) = db) /\
  (forall chat_id, snd (list_messages chat_id db) = db).
Proof.
  repeat split.
  - intros uid. run_handler.
    destruct (sorted (get "updated_at") true
                (filter (q_field "participants" (VStr uid)) (chats db)));
      reflexivity.
  - intros cid. run_handler.
    destruct (sorted (get "created_at") false
                (filter (q_field "chat_id" (VStr cid)) (messages db)));
      reflexivity.
Qed.

(* ================================================================= *)
(** ** The collection schemas of [schemas.py] *)

Module Schemas.

Record User : Type := mkUser {
  name : string;
  avatar : option string;
  status : option string
}.

Record Chat : Type := mkChat {
  title : option string;
  participants : list string;
  is_group : bool
}.

Record Message : Type := mkMessage {
  chat_id : string;
  sender_id : string;
  content : string;
  type : string
}.

(** Validation of a document against each schema, field by field as
    declared. *)
Definition user (doc : dict) : option User :=
  match Validate.required Validate.v_str "name" doc,
        Validate.defaulted Validate.v_opt_str "avatar" None doc,
        Validate.defaulted Validate.v_opt_str "status"
          (Some "Hey there! I am using VibeChat") doc
  with
  | Some n, Some a, Some s => Some (mkUser n a s)
  | _, _, _ => None
  end.

Definition chat (doc : dict) : option Chat :=
  match Validate.defaulted Validate.v_opt_str "title" None doc,
        Validate.required Validate.v_list "participants" doc,
        Validate.defaulted Validate.v_bool "is_group" false doc
  with
  | Some t, Some p, Some g => Some (mkChat t p g)
  | _, _, _ => None
  end.

Definition message (doc : dict) : option Message :=
  match Validate.required Validate.v_str "chat_id" doc,
        Validate.required Validate.v_str "sender_id" doc,
        Validate.required Validate.v_str "content" doc,
        Validate.defaulted Validate.v_str "type" "text" doc
  with
  | Some c, Some s, Some t, Some ty => Some (mkMessage c s t ty)
  | _, _, _, _ => None
  end.

End Schemas.

(** ** Invariants of the reachable stores *)

Lemma update_one_Forall (P : dict -> Prop) docs q k v :
  (forall d, P d -> P (dict_set k v d)) ->
  Forall P docs -> Forall P (update_one docs q k v).
Proof.
  intros H. induction 1 as [| d r Pd F IH]; simpl; [constructor |].
  destruct (q d); constructor; auto.
Qed.

Lemma create_user_store_cases e p db :
  snd (create_user e p db) = db \/
  snd (create_user e p db) =
  mkStore (users db ++ [new_document e (dump_user p)]) (chats db) (messages db).
Proof.
  destruct (find_one (users db) (q_id (VOid (env_oid e)))) as [d |] eqn:N.
  - left. run_handler.
    now rewrite (create_document_duplicate e user (dump_user p) db N).
  - right. now rewrite (create_user_accepts e p db N).
Qed.

(** A property of the documents each handler stores, which setting
    [updated_at] to a timestamp keeps, holds of all stored documents. *)
Lemma reachable_docs (Pu Pc Pm : dict -> Prop) :
  (forall e p, Pu (new_document e (dump_user p))) ->
  (forall e p, Pc (new_document e (dump_chat p))) ->
  (forall e p, Pm (new_document e (dump_message p))) ->
  (forall d t, Pc d -> Pc (dict_set "updated_at" (VTime t) d)) ->
  forall db, reachable db ->
    Forall Pu (users db) /\ Forall Pc (chats db) /\ Forall Pm (messages db).
Proof.
  intros Hu Hc Hm Hs db R.
  induction R as [| e p db R [U [C Ms]] | e p db R [U [C Ms]] | e p db R [U [C Ms]]].
  - repeat split; constructor.
  - destruct (create_user_store_cases e p db) as [E | E]; rewrite E.
    + now repeat split.
    + repeat split; cbn [users chats messages]; trivial.
      apply Forall_app. split; trivial. repeat constructor. apply Hu.
  - destruct (create_chat_store e p db) as [E | E]; rewrite E.
    + now repeat split.
    + repeat split; cbn [users chats messages]; trivial.
      apply Forall_app. split; trivial. repeat constructor. apply Hc.
  - destruct (send_message_store e p db) as [E | [oid E]]; rewrite E.
    + now repeat split.
    + repeat split; cbn [users chats messages]; trivial.
      * unfold touch_chat. apply update_one_Forall; trivial.
        intros d P. now apply Hs.
      * apply Forall_app. split; trivial. repeat constructor. apply Hm.
Qed.

Lemma v_list_str_map l : Validate.v_list_str (map VStr l) = Some l.
Proof. induction l as [| s r IH]; simpl; [trivial | now rewrite IH]. Qed.

Lemma schema_chat_set d t :
  Schemas.chat (dict_set "updated_at" (VTime t) d) = Schemas.chat d.
Proof.
  unfold Schemas.chat, Validate.required, Validate.defaulted.
  now rewrite !dict_get_set_other by discriminate.
Qed.

(** Every document the service has stored validates against its schema
    in [schemas.py]; the fields the store adds ([_id], [created_at],
    [updated_at]) are not declared there and are ignored. *)
Theorem stored_documents_conform (db : store) :
  reachable db ->
  (forall d, In d (users db) -> exists u, Schemas.user d = Some u) /\
  (forall d, In d (chats db) -> exists c, Schemas.chat d = Some c) /\
  (forall d, In d (messages db) -> exists m, Schemas.message d = Some m).
Proof.
  intros R.
  destruct (reachable_docs
              (fun d => exists u, Schemas.user d = Some u)
              (fun d => exists c, Schemas.chat d = Some c)
              (fun d => exists m, Schemas.message d = Some m)) with (db := db)
    as [U [C Ms]]; trivial.
  - intros e [n [a |] [s |]]; eexists; reflexivity.
  - intros e [ps [t |] g]; eexists; unfold Schemas.chat, Validate.required;
      cbn; rewrite v_list_str_map; reflexivity.
  - intros e p. eexists. reflexivity.
  - intros d t [c E]. exists c. now rewrite schema_chat_set.
  - rewrite Forall_forall in U, C, Ms. repeat split; auto.
Qed.

Lemma stored_documents_conform_witness :
  reachable store_busy /\
  exists c, Schemas.chat (nth 0 (chats store_busy) []) = Some c.
Proof.
  split; [exact store_busy_reachable |].
  apply (proj1 (proj2 (stored_documents_conform store_busy_reachable))).
  vm_compute. left. reflexivity.
Defined.

(** ** Messages and their chats *)

Lemma find_one_update_any docs q w k v c :
  k <> "_id" ->
  find_one docs (q_id w) = Some c ->
  exists c',
    find_one (update_one docs q k v) (q_id w) = Some c' /\
    (forall k', k' <> k -> dict_get k' c' = dict_get k' c).
Proof.
  intros K. unfold find_one.
  induction docs as [| d r IH]; simpl; [discriminate |].
  intros F. destruct (q d) eqn:Q; simpl.
  - rewrite q_id_set by trivial.
    destruct (q_id w d).
    + inversion F; subst. eexists. split; [reflexivity |].
      intros k' N. now apply dict_get_set_other.
    + exists c. now split.
  - destruct (q_id w d).
    + inversion F; subst. exists c. now split.
    + now apply IH.
Qed.

Lemma value_eqb_str s v : value_eqb (VStr s) v = py_eq (VStr s) v.
Proof. now destruct v. Qed.

Lemma v_list_str_inv l : forall ps,
  Validate.v_list_str l = Some ps -> l = map VStr ps.
Proof.
  induction l as [| x r IH]; simpl; intros ps E.
  - now inversion E.
  - destruct x; try discriminate.
    destruct (Validate.v_list_str r) as [r' |]; try discriminate.
    inversion E; subst ps. simpl. f_equal. now apply IH.
Qed.

Lemma schema_chat_participants d c :
  Schemas.chat d = Some c ->
  dict_get "participants" d = Some (VList (map VStr (Schemas.participants c))).
Proof.
  unfold Schemas.chat.
  destruct (Validate.defaulted Validate.v_opt_str "title" None d);
    [| discriminate].
  destruct (Validate.required Validate.v_list "participants" d) as [ps |] eqn:E;
    [| discriminate].
  destruct (Validate.defaulted Validate.v_bool "is_group" false d);
    [| discriminate].
  intros H. inversion H; subst c. simpl.
  unfold Validate.required in E.
  destruct (dict_get "participants" d) as [v |]; [| discriminate].
  destruct v; try discriminate. simpl in E.
  now rewrite (v_list_str_inv _ E).
Qed.

Lemma stored_chat_shape db :
  reachable db -> forall c, In c (chats db) ->
  exists l, dict_get "participants" c = Some (VList l).
Proof.
  intros R c I.
  destruct (reachable_docs
              (fun _ => True)
              (fun d => exists s, Schemas.chat d = Some s)
              (fun _ => True)) with (db := db) as [_ [C _]]; trivial.
  - intros e [ps [t |] g]; eexists; unfold Schemas.chat, Validate.required;
      cbn; rewrite v_list_str_map; reflexivity.
  - intros d t [s E]. exists s. now rewrite schema_chat_set.
  - rewrite Forall_forall in C. destruct (C c I) as [s E].
    eexists. exact (schema_chat_participants _ E).
Qed.

(** The message names, by a well-formed identifier, a stored chat whose
    participants include the sender. *)
Definition message_linked (db : store) (m : dict) : Prop :=
  exists cid sid oid c l,
    dict_get "chat_id" m = Some (VStr cid) /\
    dict_get "sender_id" m = Some (VStr sid) /\
    Oid.parse cid = Some oid /\
    find_one (chats db) (q_id (VOid oid)) = Some c /\
    dict_get "participants" c = Some (VList l) /\
    In (VStr sid) l.

Lemma message_linked_more_chats db m d us ms :
  message_linked db m ->
  message_linked (mkStore us (chats db ++ [d]) ms) m.
Proof.
  intros [cid [sid [oid [c [l [A [B [P [F [G I]]]]]]]]]].
  exists cid, sid, oid, c, l. repeat split; trivial.
  cbn [chats]. now apply find_one_app_old.
Qed.

Lemma message_linked_touch db m oid t us ms :
  message_linked db m ->
  message_linked (mkStore us (touch_chat db oid t) ms) m.
Proof.
  intros [cid [sid [o [c [l [A [B [P [F [G I]]]]]]]]]].
  destruct (find_one_update_any (chats db) (q_id (VOid oid)) (VOid o)
              (k := "updated_at") t (c := c)) as [c' [F' S]];
    trivial; try discriminate.
  exists cid, sid, o, c', l. repeat split; trivial.
  rewrite S; trivial. discriminate.
Qed.

(** Referential integrity: in every store the service can reach, each
    stored message names an existing chat, and its sender is among the
    participants that chat has now. *)
Theorem messages_stay_linked (db : store) :
  reachable db -> forall m, In m (messages db) -> message_linked db m.
Proof.
  induction 1 as [| e p db R IH | e p db R IH | e p db R IH]; intros m I.
  - destruct I.
  - destruct (create_user_store_cases e p db) as [E | E]; rewrite E in *.
    + now apply IH.
    + cbn [messages] in I.
      destruct (IH m I) as [cid [sid [oid [c [l H]]]]].
      exists cid, sid, oid, c, l. exact H.
  - destruct (create_chat_store e p db) as [E | E]; rewrite E in *.
    + now apply IH.
    + cbn [messages] in I. apply message_linked_more_chats. now apply IH.
  - destruct (send_message_verdict e p db) as [S | E].
    2:{ rewrite E in *. now apply IH. }
    destruct (fst (send_message e p db)) as [r | | |] eqn:Fst; try discriminate.
    assert (H : send_message e p db = (Ok r, snd (send_message e p db))).
    { rewrite <- Fst. apply surjective_pairing. }
    destruct (send_message_ok_inv _ _ _ H) as [oid [c [P [F [Pin N]]]]].
    rewrite (send_message_accepts e p db P F Pin N) in *. cbn [snd messages] in *.
    apply in_app_or in I. destruct I as [I | [<- | []]].
    + apply message_linked_touch. now apply IH.
    + destruct (stored_chat_shape R c) as [l G].
      { now destruct (find_one_id _ _ F). }
      unfold get_default in Pin. rewrite G in Pin. cbn [py_in] in Pin.
      inversion Pin as [Ex]. apply py_in_list in Ex.
      destruct (find_one_update_any (chats db) (q_id (VOid oid)) (VOid oid)
                  (k := "updated_at") (VTime (env_now e)) (c := c))
        as [c' [F' Sm]]; trivial; try discriminate.
      exists (chat_id p), (sender_id p), oid, c', l.
      repeat split; trivial.
      rewrite Sm; trivial. discriminate.
Qed.

Lemma messages_stay_linked_witness :
  reachable store_busy /\
  message_linked store_busy (nth 0 (messages store_busy) []).
Proof.
  split; [exact store_busy_reachable |].
  apply (messages_stay_linked store_busy_reachable).
  vm_compute. left. reflexivity.
Defined.

(** ** Sending, then listing *)

Lemma reachable_after_send e p db r db' :
  reachable db -> send_message e p db = (Ok r, db') -> reachable db'.
Proof.
  intros R H. replace db' with (snd (send_message e p db)) by now rewrite H.
  now constructor.
Qed.

(** After a message was sent, listing the messages of the chat, under the
    [chat_id] string the message was sent with, answers normally and
    includes the record the send returned. *)
Theorem sent_message_is_listed (e : env) (p : CreateMessage) (db db' : store)
    (r : option dict) :
  reachable db ->
  send_message e p db = (Ok r, db') ->
  exists l, list_messages (chat_id p) db' = (Ok l, db') /\ In r l.
Proof.
  intros R H.
  pose proof (@reachable_after_send _ _ _ _ _ R H) as R'.
  destruct (reachable_ok R') as [_ Ms].
  destruct (send_message_ok_inv _ _ _ H) as [oid [c [P [F [Pin N]]]]].
  rewrite (send_message_accepts e p db P F Pin N) in H.
  assert (Er : r = serialize (Some (new_document e (dump_message p))))
    by (inversion H; reflexivity).
  assert (Edb : messages db' = (messages db ++ [new_document e (dump_message p)])%list)
    by (inversion H; reflexivity).
  clear H. subst r.
  destruct (listing_sorted (k := "created_at") false
              (docs := filter (q_field "chat_id" (VStr (chat_id p))) (messages db')))
    as [l [E [Perm _]]]; try discriminate.
  { now apply filter_stamped. }
  exists (map (fun d => serialize (Some d)) l). split.
  - run_handler. now rewrite E.
  - apply (in_map (fun d => serialize (Some d))).
    apply (Permutation_in _ Perm).
    apply filter_In. split.
    + rewrite Edb. apply in_or_app. right. now left.
    + unfold q_field. cbn. apply String.eqb_refl.
Qed.

Lemma sent_message_is_listed_witness :
  exists l,
    list_messages (chat_id msg_hello)
      (snd (send_message env_b msg_hello store_one_chat))
    = (Ok l, snd (send_message env_b msg_hello store_one_chat)) /\
    In (serialize (Some (new_document env_b (dump_message msg_hello)))) l.
Proof.
  apply (@sent_message_is_listed env_b msg_hello store_one_chat
           (snd (send_message env_b msg_hello store_one_chat))
           (serialize (Some (new_document env_b (dump_message msg_hello))))).
  - unfold store_one_chat. apply reach_create_chat, reach_empty.
  - reflexivity.
Defined.

(** After a message was sent, listing the chats of any participant of
    the chat answers normally and includes the chat, whose [updated_at] is
    the [created_at] of the record the send returned. *)
Theorem touched_chat_is_listed (e : env) (p : CreateMessage) (db db' : store)
    (r : option dict) (oid : ObjectId) (c : dict) (ps : list value) (u : string) :
  reachable db ->
  send_message e p db = (Ok r, db') ->
  Oid.parse (chat_id p) = Some oid ->
  find_one (chats db) (q_id (VOid oid)) = Some c ->
  dict_get "participants" c = Some (VList ps) ->
  In (VStr u) ps ->
  exists l c',
    list_chats u db' = (Ok l, db') /\
    find_one (chats db') (q_id (VOid oid)) = Some c' /\
    In (serialize (Some c')) l /\
    stamp "updated_at" (serialize (Some c')) = Some (env_now e) /\
    stamp "created_at" r = Some (env_now e).
Proof.
  intros R H P F G I.
  pose proof (@reachable_after_send _ _ _ _ _ R H) as R'.
  destruct (reachable_ok R') as [C _].
  destruct (send_message_ok_inv _ _ _ H) as [oid' [c0 [P' [F' [Pin N]]]]].
  rewrite P in P'. inversion P'; subst oid'. rewrite F in F'.
  inversion F'; subst c0. clear P' F'.
  rewrite (send_message_accepts e p db P F Pin N) in H.
  assert (Er : r = serialize (Some (new_document e (dump_message p))))
    by (inversion H; reflexivity).
  assert (Edb : chats db' = touch_chat db oid (VTime (env_now e)))
    by (inversion H; reflexivity).
  clear H. subst r.
  destruct (listing_sorted (k := "updated_at") true
              (docs := filter (q_field "participants" (VStr u)) (chats db')))
    as [l [E [Perm _]]]; try discriminate.
  { now apply filter_stamped. }
  assert (Fc : find_one (chats db') (q_id (VOid oid))
               = Some (dict_set "updated_at" (VTime (env_now e)) c)).
  { rewrite Edb. unfold touch_chat.
    rewrite find_one_update by discriminate. now rewrite F. }
  exists (map (fun d => serialize (Some d)) l),
    (dict_set "updated_at" (VTime (env_now e)) c).
  destruct (find_one_id _ _ Fc) as [Ic _].
  rewrite Forall_forall in C. destruct (C _ Ic) as [W _].
  repeat split; trivial.
  - run_handler. now rewrite E.
  - apply (in_map (fun d => serialize (Some d))).
    apply (Permutation_in _ Perm).
    apply filter_In. split; trivial.
    unfold q_field. rewrite dict_get_set_other by discriminate. rewrite G.
    apply existsb_exists. exists (VStr u). split; trivial.
    cbn. apply String.eqb_refl.
  - apply stamp_serialize; trivial; try discriminate.
    apply dict_get_set_same.
Qed.

Lemma touched_chat_is_listed_witness :
  exists l c',
    list_chats "bob" (snd (send_message env_b msg_hello store_one_chat))
    = (Ok l, snd (send_message env_b msg_hello store_one_chat)) /\
    find_one (chats (snd (send_message env_b msg_hello store_one_chat)))
      (q_id (VOid oid_a)) = Some c' /\
    In (serialize (Some c')) l /\
    stamp "updated_at" (serialize (Some c')) = Some (env_now env_b) /\
    stamp "created_at" (serialize (Some (new_document env_b (dump_message msg_hello))))
    = Some (env_now env_b).
Proof.
  apply (@touched_chat_is_listed env_b msg_hello store_one_chat
           (snd (send_message env_b msg_hello store_one_chat))
           (serialize (Some (new_document env_b (dump_message msg_hello))))
           oid_a
           (new_document env_a
              (dump_chat (mkCreateChat ["ann"; "bob"] None false)))
           [VStr "ann"; VStr "bob"] "bob").
  - unfold store_one_chat. apply reach_create_chat, reach_empty.
  - reflexivity.
  - reflexivity.
  - reflexivity.
  - reflexivity.
  - simpl. right. left. reflexivity.
Defined.

(** Listing compares [chat_id] strings as they are, while sending accepts
    every spelling [ObjectId] parses: a send changes the listing of no
    other [chat_id] string, also not of another spelling of the same
    identifier. *)
Theorem send_leaves_other_listings (e : env) (p : CreateMessage) (db db' : store)
    (r : option dict) (cid : string) :
  send_message e p db = (Ok r, db') ->
  cid <> chat_id p ->
  fst (list_messages cid db') = fst (list_messages cid db).
Proof.
  intros H D.
  destruct (send_message_ok_inv _ _ _ H) as [oid [c [P [F [Pin N]]]]].
  rewrite (send_message_accepts e p db P F Pin N) in H.
  inversion H; subst db'. clear H.
  run_handler. cbn [messages]. rewrite filter_app.
  assert (Q : q_field "chat_id" (VStr cid) (new_document e (dump_message p)) = false).
  { unfold q_field. cbn. now apply String.eqb_neq. }
  cbn [filter]. rewrite Q, app_nil_r.
  destruct (sorted (get "created_at") false
              (filter (q_field "chat_id" (VStr cid)) (messages db)));
    reflexivity.
Qed.

(** A message sent under the upper-case spelling of the identifier of
    the chat of [store_one_chat]. *)
Definition msg_upper : CreateMessage :=
  mkCreateMessage "65F1A2B3C4D5E6F708192A3B" "ann" "hello" "text".

Lemma send_leaves_other_listings_witness :
  succeeded (fst (send_message env_b msg_upper store_one_chat)) = true /\
  Oid.parse (chat_id msg_upper) = Some oid_a /\
  fst (list_messages (Oid.str oid_a)
         (snd (send_message env_b msg_upper store_one_chat)))
  = Ok [].
Proof.
  split; [reflexivity |].
  split; [reflexivity |].
  rewrite (@send_leaves_other_listings env_b msg_upper store_one_chat
             (snd (send_message env_b msg_upper store_one_chat))
             (serialize (Some (new_document env_b (dump_message msg_upper))))
             (Oid.str oid_a)).
  - reflexivity.
  - reflexivity.
  - discriminate.
Defined.

(** ** Sorting documents that lack the sort key *)

Section SortedWithoutKey.
Variable A : Type.
Variable key : A -> value.

(** [key x] is a timestamp, or [None] as [d.get] gives for a missing
    field. *)
Definition timed_or_none (x : A) : Prop := timed key x \/ key x = VNone.

Lemma insert_sorted_all_timed (x : A) (l : list A) :
  timed key x -> Forall (timed key) l ->
  exists l', insert_sorted key x l = Ok l' /\ Permutation (x :: l) l'.
Proof.
  intros [tx Ex]. induction 1 as [| y r [ty Ey] F IH].
  - exists [x]. now split.
  - cbn [insert_sorted]. rewrite Ex, Ey. cbn [py_lt bind_outcome].
    destruct (ty <? tx)%Z.
    + destruct IH as [r' [E P]]. rewrite E. cbn [bind_outcome].
      exists (y :: r'). split; trivial.
      rewrite perm_swap. now constructor.
    + exists (x :: y :: r). now split.
Qed.

Lemma py_lt_none_left v : py_lt VNone v = Raised TypeError.
Proof. reflexivity. Qed.

Lemma py_lt_none_right t : py_lt (VTime t) VNone = Raised TypeError.
Proof. reflexivity. Qed.

Lemma insert_sorted_untimed (x y : A) (r : list A) :
  timed_or_none x -> timed_or_none y ->
  ~ (timed key x /\ timed key y) ->
  insert_sorted key x (y :: r) = Raised TypeError.
Proof.
  intros Hx Hy N. cbn [insert_sorted].
  destruct Hy as [[ty Ey] | Ey]; rewrite Ey.
  - destruct Hx as [Tx | Ex].
    + exfalso. apply N. split; trivial. now exists ty.
    + now rewrite Ex.
  - reflexivity.
Qed.

Lemma not_timed_none (x : A) : key x = VNone -> ~ timed key x.
Proof. intros E [t T]. congruence. Qed.

(** Sorting either raises [TypeError], and then two or more documents
    were given, not all with a timestamp; or it succeeds, and then all had
    a timestamp or there was at most one. *)
Lemma sort_asc_cases (l : list A) :
  Forall timed_or_none l ->
  (sort_asc key l = Raised TypeError /\
   ~ Forall (timed key) l /\ (2 <= List.length l)%nat) \/
  (exists l', sort_asc key l = Ok l' /\ Permutation l l' /\
              (Forall (timed key) l \/ (List.length l <= 1)%nat)).
Proof.
  induction 1 as [| x r Hx F IH].
  - right. exists []. repeat split; trivial. right. simpl. lia.
  - cbn [sort_asc].
    destruct IH as [[E [NT L]] | [r' [E [P C]]]]; rewrite E; cbn [bind_outcome].
    + left. repeat split; trivial.
      * intros T. inversion T. contradiction.
      * simpl. lia.
    + destruct r' as [| y r''].
      { apply Permutation_sym, Permutation_nil in P. subst r.
        right. exists [x]. repeat split; trivial. right. simpl. lia. }
      assert (Iy : In y r).
      { apply (Permutation_in _ (Permutation_sym P)). now left. }
      assert (Hy : timed_or_none y).
      { rewrite Forall_forall in F. now apply F. }
      destruct Hx as [Tx | Ex].
      * destruct C as [T | L].
        -- destruct (insert_sorted_all_timed (x := x) (l := y :: r'') Tx)
             as [l' [E' P']].
           { apply (Permutation_Forall P T). }
           right. exists l'. repeat split; trivial.
           ++ now rewrite <- P', <- P.
           ++ left. now constructor.
        -- destruct Hy as [Ty | Ey].
           ++ assert (T : Forall (timed key) r).
              { destruct r as [| z [| z' r0]]; simpl in L; try lia.
                - destruct Iy.
                - destruct Iy as [<- | []]. now repeat constructor. }
              destruct (insert_sorted_all_timed (x := x) (l := y :: r'') Tx)
                as [l' [E' P']].
              { apply (Permutation_Forall P T). }
              right. exists l'. repeat split; trivial.
              ** now rewrite <- P', <- P.
              ** left. now constructor.
           ++ left. repeat split.
              ** apply insert_sorted_untimed; trivial; [now left | now right |].
                 intros [_ Ty]. now apply (not_timed_none Ey).
              ** intros T. inversion T as [| ? ? _ Tr]; subst.
                 rewrite Forall_forall in Tr.
                 now apply (not_timed_none Ey), Tr.
              ** destruct r; [destruct Iy | simpl; lia].
      * left. repeat split.
        -- apply insert_sorted_untimed; trivial; [now right |].
           intros [Tx _]. now apply (not_timed_none Ex).
        -- intros T. inversion T as [| ? ? Tx _]; subst.
           now apply (not_timed_none Ex).
        -- destruct r; [destruct Iy | simpl; lia].
Qed.

Lemma sorted_untimed (reverse : bool) (l : list A) :
  Forall timed_or_none l ->
  (exists x, In x l /\ key x = VNone) ->
  (2 <= List.length l)%nat ->
  sorted key reverse l = Raised TypeError.
Proof.
  intros F [x [I E]] L.
  assert (G : forall l0, Forall timed_or_none l0 -> In x l0 ->
                         (2 <= List.length l0)%nat ->
                         sort_asc key l0 = Raised TypeError).
  { intros l0 F0 I0 L0.
    destruct (sort_asc_cases F0) as [[R _] | [l' [_ [_ [T | L1]]]]]; trivial.
    - exfalso. rewrite Forall_forall in T. now apply (not_timed_none E), T.
    - lia. }
  unfold sorted. destruct reverse.
  - rewrite G; trivial.
    + now apply Forall_rev.
    + now apply in_rev in I.
    + now rewrite length_rev.
  - now apply G.
Qed.
End SortedWithoutKey.

(** The listings depend on the timestamps: when two or more documents
    match and one of them has no [created_at] (for chats: [updated_at]),
    the others having a timestamp or none, the sort raises [TypeError] and
    the request ends as a server error; a single matching document is
    returned without any comparison, whatever it holds. *)
Theorem listing_needs_timestamps (db : store) (cid uid : string) :
  let ms := filter (q_field "chat_id" (VStr cid)) (messages db) in
  let cs := filter (q_field "participants" (VStr uid)) (chats db) in
  (Forall (timed_or_none (get "created_at")) ms ->
   (exists d, In d ms /\ dict_get "created_at" d = None) ->
   (2 <= List.length ms)%nat ->
   list_messages cid db = (Raised TypeError, db)) /\
  (Forall (timed_or_none (get "updated_at")) cs ->
   (exists d, In d cs /\ dict_get "updated_at" d = None) ->
   (2 <= List.length cs)%nat ->
   list_chats uid db = (Raised TypeError, db)) /\
  (forall d, ms = [d] -> list_messages cid db = (Ok [serialize (Some d)], db)) /\
  (forall d, cs = [d] -> list_chats uid db = (Ok [serialize (Some d)], db)).
Proof.
  intros ms cs. repeat split.
  - intros F [d [I G]] L. run_handler. fold ms.
    rewrite sorted_untimed; trivial.
    exists d. split; trivial. unfold get. now rewrite G.
  - intros F [d [I G]] L. run_handler. fold cs.
    rewrite sorted_untimed; trivial.
    exists d. split; trivial. unfold get. now rewrite G.
  - intros d E. run_handler. fold ms. now rewrite E.
  - intros d E. run_handler. fold cs. now rewrite E.
Qed.

(** A message collection filled by another writer: the second document
    has no [created_at]. *)
Definition store_imported : store :=
  mkStore [] []
    [[("_id", VOid oid_a); ("chat_id", VStr "general"); ("content", VStr "one");
      ("created_at", VTime 5)];
     [("_id", VOid oid_b); ("chat_id", VStr "general"); ("content", VStr "two")];
     [("_id", VOid oid_c); ("chat_id", VStr "random"); ("content", VStr "three")]].

Lemma listing_needs_timestamps_witness :
  list_messages "general" store_imported = (Raised TypeError, store_imported) /\
  list_messages "random" store_imported =
  (Ok [Some [("id", VStr (Oid.str oid_c)); ("chat_id", VStr "random");
             ("content", VStr "three")]], store_imported).
Proof.
  destruct (listing_needs_timestamps store_imported "general" "ann")
    as [A _].
  destruct (listing_needs_timestamps store_imported "random" "ann")
    as [_ [_ [B _]]].
  split.
  - apply A.
    + vm_compute. constructor; [| constructor; [| constructor]].
      * left. exists 5%Z. reflexivity.
      * right. reflexivity.
    + exists [("_id", VOid oid_b); ("chat_id", VStr "general");
              ("content", VStr "two")].
      split; [right; left; reflexivity | reflexivity].
    + simpl. lia.
  - apply (B [("_id", VOid oid_c); ("chat_id", VStr "random");
              ("content", VStr "three")]).
    reflexivity.
Defined.

(** ** Equal timestamps keep the store's order *)

Section SortedStable.
Variable A : Type.
Variable key : A -> value.

(** The sort key of [x] is the timestamp [t]. *)
Definition at_time (t : Z) (x : A) : bool :=
  match key x with
  | VTime t' => (t' =? t)%Z
  | _ => false
  end.

Lemma insert_sorted_at_time (t : Z) (x : A) (l : list A) :
  timed key x -> Forall (timed key) l ->
  forall l', insert_sorted key x l = Ok l' ->
  filter (at_time t) l' = filter (at_time t) (x :: l).
Proof.
  intros [tx Ex]. induction 1 as [| y r [ty Ey] F IH]; intros l' E.
  - cbn [insert_sorted] in E. now inversion E.
  - cbn [insert_sorted] in E. rewrite Ex, Ey in E. cbn [py_lt bind_outcome] in E.
    destruct (Z.ltb_spec ty tx) as [L | L].
    + destruct (insert_sorted key x r) as [r' | | |]; try discriminate.
      cbn [bind_outcome] in E. inversion E; subst l'.
      assert (Ax : at_time t x = (tx =? t)%Z)
        by (unfold at_time; now rewrite Ex).
      assert (Ay : at_time t y = (ty =? t)%Z)
        by (unfold at_time; now rewrite Ey).
      cbn [filter]. rewrite (IH r' eq_refl). cbn [filter].
      rewrite Ax, Ay.
      destruct (Z.eqb_spec ty t), (Z.eqb_spec tx t); trivial. lia.
    + now inversion E.
Qed.

Lemma sort_asc_at_time (t : Z) (l : list A) :
  Forall (timed key) l ->
  forall l', sort_asc key l = Ok l' ->
  filter (at_time t) l' = filter (at_time t) l.
Proof.
  induction 1 as [| x r Tx F IH]; intros l' E.
  - cbn [sort_asc] in E. now inversion E.
  - cbn [sort_asc] in E.
    destruct (sort_asc_timed (key := key) (l := r) F) as [r' [E' [P _]]].
    rewrite E' in E. cbn [bind_outcome] in E.
    rewrite (@insert_sorted_at_time t x r' Tx (Permutation_Forall P F) l' E).
    cbn [filter]. now rewrite (IH r' E').
Qed.

Lemma sorted_at_time (t : Z) (reverse : bool) (l : list A) :
  Forall (timed key) l ->
  forall l', sorted key reverse l = Ok l' ->
  filter (at_time t) l' = filter (at_time t) l.
Proof.
  intros F l' E. unfold sorted in E. destruct reverse.
  - destruct (sort_asc key (rev l)) as [r | | |] eqn:S; try discriminate.
    cbn [bind_outcome] in E. inversion E; subst l'.
    rewrite filter_rev.
    rewrite (@sort_asc_at_time t (rev l) (Forall_rev F) r S).
    now rewrite filter_rev, rev_involutive.
  - now apply sort_asc_at_time.
Qed.
End SortedStable.

(** Both listings are stable: in every reachable store, the documents
    that share a timestamp come back in the order the store holds them,
    also in the descending listing of chats. *)
Theorem listings_keep_ties (db : store) :
  reachable db ->
  (forall cid, exists l,
     list_messages cid db = (Ok (map (fun d => serialize (Some d)) l), db) /\
     forall t,
       filter (at_time (get "created_at") t) l =
       filter (at_time (get "created_at") t)
         (filter (q_field "chat_id" (VStr cid)) (messages db))) /\
  (forall uid, exists l,
     list_chats uid db = (Ok (map (fun d => serialize (Some d)) l), db) /\
     forall t,
       filter (at_time (get "updated_at") t) l =
       filter (at_time (get "updated_at") t)
         (filter (q_field "participants" (VStr uid)) (chats db))).
Proof.
  intros R. destruct (reachable_ok R) as [C Ms]. split.
  - intros cid.
    assert (T : Forall (timed (get "created_at"))
                  (filter (q_field "chat_id" (VStr cid)) (messages db))).
    { eapply Forall_impl; [| apply filter_stamped; exact Ms].
      intros d. apply stamped_timed. }
    destruct (sorted_timed (key := get "created_at") false T) as [l [E _]].
    exists l. split.
    + run_handler. now rewrite E.
    + intros t. exact (@sorted_at_time _ _ t _ _ T l E).
  - intros uid.
    assert (T : Forall (timed (get "updated_at"))
                  (filter (q_field "participants" (VStr uid)) (chats db))).
    { eapply Forall_impl; [| apply filter_stamped; exact C].
      intros d. apply stamped_timed. }
    destruct (sorted_timed (key := get "updated_at") true T) as [l [E _]].
    exists l. split.
    + run_handler. now rewrite E.
    + intros t. exact (@sorted_at_time _ _ t _ _ T l E).
Qed.

(** A store with two chats of ["ann"] created at the same instant. *)
Definition store_twins : store :=
  snd (create_chat (mkEnv 1700000000000 oid_b)
         (mkCreateChat ["ann"; "cat"] None false) store_one_chat).

Lemma listings_keep_ties_witness :
  reachable store_twins /\
  exists l,
    list_chats "ann" store_twins
    = (Ok (map (fun d => serialize (Some d)) l), store_twins) /\
    filter (at_time (get "updated_at") 1700000000000) l = chats store_twins.
Proof.
  assert (R : reachable store_twins).
  { unfold store_twins, store_one_chat.
    apply reach_create_chat, reach_create_chat, reach_empty. }
  split; [exact R |].
  destruct (proj2 (listings_keep_ties R) "ann") as [l [E S]].
  exists l. split; [exact E |].
  rewrite S. reflexivity.
Defined.

(** ** Creating a chat, then listing *)

(** A chat that was just created is listed for each of its participants,
    before any message, with the creation time as [updated_at]. *)
Theorem created_chat_is_listed (e : env) (p : CreateChat) (db db' : store)
    (r : option dict) (u : string) :
  reachable db ->
  create_chat e p db = (Ok r, db') ->
  In u (participants p) ->
  exists l,
    list_chats u db' = (Ok l, db') /\ In r l /\
    stamp "updated_at" r = Some (env_now e).
Proof.
  intros R H I.
  assert (R' : reachable db').
  { replace db' with (snd (create_chat e p db)) by now rewrite H.
    now constructor. }
  destruct (reachable_ok R') as [C _].
  destruct ((List.length (participants p) <? 2)%nat && negb (is_group p)) eqn:G.
  { revert H. run_handler. rewrite G. discriminate. }
  destruct (find_one (chats db) (q_id (VOid (env_oid e)))) as [d |] eqn:N.
  { revert H. run_handler. rewrite G.
    rewrite (create_document_duplicate e chat (dump_chat p) db N). discriminate. }
  rewrite (create_chat_accepts e p db G N) in H.
  assert (Er : r = serialize (Some (new_document e (dump_chat p))))
    by (inversion H; reflexivity).
  assert (Edb : chats db' = (chats db ++ [new_document e (dump_chat p)])%list)
    by (inversion H; reflexivity).
  clear H. subst r.
  destruct (listing_sorted (k := "updated_at") true
              (docs := filter (q_field "participants" (VStr u)) (chats db')))
    as [l [E [Perm _]]]; try discriminate.
  { now apply filter_stamped. }
  exists (map (fun d => serialize (Some d)) l). repeat split.
  - run_handler. now rewrite E.
  - apply (in_map (fun d => serialize (Some d))).
    apply (Permutation_in _ Perm).
    apply filter_In. split.
    + rewrite Edb. apply in_or_app. right. now left.
    + unfold q_field. cbn. apply existsb_exists. exists (VStr u). split.
      * now apply in_map.
      * cbn. apply String.eqb_refl.
  - rewrite serialize_new_chat. reflexivity.
Qed.

Lemma created_chat_is_listed_witness :
  exists l,
    list_chats "cat" store_twins = (Ok l, store_twins) /\
    In (serialize (Some (new_document (mkEnv 1700000000000 oid_b)
                           (dump_chat (mkCreateChat ["ann"; "cat"] None false))))) l /\
    stamp "updated_at"
      (serialize (Some (new_document (mkEnv 1700000000000 oid_b)
                          (dump_chat (mkCreateChat ["ann"; "cat"] None false)))))
    = Some 1700000000000%Z.
Proof.
  apply (@created_chat_is_listed (mkEnv 1700000000000 oid_b)
           (mkCreateChat ["ann"; "cat"] None false) store_one_chat store_twins
           (serialize (Some (new_document (mkEnv 1700000000000 oid_b)
                               (dump_chat (mkCreateChat ["ann"; "cat"] None false)))))
           "cat").
  - unfold store_one_chat. apply reach_create_chat, reach_empty.
  - reflexivity.
  - simpl. right. left. reflexivity.
Defined.

(** ** Defaults and element types of the request models *)

Lemma v_list_str_bad l v :
  In v l -> (forall s, v <> VStr s) -> Validate.v_list_str l = None.
Proof.
  intros I N. induction l as [| x r IH]; simpl; [destruct I |].
  destruct I as [-> | I].
  - destruct v; trivial. exfalso. now apply (N s).
  - rewrite (IH I). now destruct (Validate.v_str x).
Qed.

(** A chat body that gives only [participants] is read with no title and
    [is_group] false, so the rule for direct chats applies to it; a
    [participants] list with an element that is not a string fails
    validation (422) and stores nothing; a message body without [type] is
    read with type ["text"]. *)
Theorem request_model_defaults (e : env) (db : store) :
  (forall ps,
     post_chats e [("participants", VList (map VStr ps))] db
     = create_chat e (mkCreateChat ps None false) db) /\
  (forall body l v,
     dict_get "participants" body = Some (VList l) ->
     In v l -> (forall s, v <> VStr s) ->
     post_chats e body db = (RequestValidationError, db)) /\
  (forall c s t,
     post_messages e [("chat_id", VStr c); ("sender_id", VStr s); ("content", VStr t)] db
     = send_message e (mkCreateMessage c s t "text") db).
Proof.
  repeat split.
  - intros ps. unfold post_chats, Validate.create_chat, Validate.required,
      Validate.defaulted. cbn. now rewrite v_list_str_map.
  - intros body l v G I N.
    unfold post_chats, Validate.create_chat, Validate.required. rewrite G.
    cbn [Validate.v_list]. now rewrite (v_list_str_bad l I N).
Qed.

Lemma request_model_defaults_witness :
  post_chats env_a [("participants", VList [VStr "ann"])] empty_store
    = (HTTPException 400 "A direct chat requires 2 participants", empty_store) /\
  post_chats env_a [("participants", VList [VStr "ann"; VInt 7])] empty_store
    = (RequestValidationError, empty_store).
Proof.
  destruct (request_model_defaults env_a empty_store) as [A [B _]].
  split.
  - exact (eq_trans (A ["ann"]) eq_refl).
  - apply (B _ [VStr "ann"; VInt 7] (VInt 7)).
    + reflexivity.
    + simpl. right. left. reflexivity.
    + discriminate.
Defined.

(* ================================================================= *)
(** ** Root and health *)

Definition read_root : dict := [("message", VStr "VibeChat Backend running")].

(** The handle [db] of the database module, as far as [test_database]
    uses it: its name, and what [list_collection_names()] does, the names
    or an exception with its message. *)
Record database : Type := mkDatabase {
  db_name : string;
  list_collection_names : string + list string
}.

(** Strings hold UTF-8: a character is a byte that is no continuation
    byte, followed by its continuation bytes. *)
Definition is_continuation (c : ascii) : bool :=
  let n := nat_of_ascii c in ((128 <=? n) && (n <? 192))%nat.

(** [len(s)], in characters *)
Fixpoint char_count (s : string) : nat :=
  match s with
  | EmptyString => 0
  | String c r => (if is_continuation c then 0 else 1) + char_count r
  end.

(** [s[:n]]: the first [n] characters *)
Fixpoint take_chars (n : nat) (s : string) : string :=
  match s with
  | EmptyString => EmptyString
  | String c r =>
      if is_continuation c then String c (take_chars n r)
      else
        match n with
        | O => EmptyString
        | S m => String c (take_chars m r)
        end
  end.

(** [test_database()]; [db] is [None] when no database is configured and
    [DATABASE_URL] is what [os.getenv] gives.  Reading [db.name] and the
    environment does not raise, so the outer handler never runs. *)
Definition test_database (db : option database) (DATABASE_URL : option string)
  : dict :=
  let response :=
    [("backend", VStr "✅ Running");
     ("database", VStr "❌ Not Available");
     ("database_url", VStr "❌ Not Set");
     ("database_name", VStr "❌ Not Set");
     ("connection_status", VStr "Not Connected");
     ("collections", VList [])] in
  match db with
  | None => response
  | Some h =>
      let response := dict_set "database" (VStr "✅ Available") response in
      let response :=
        dict_set "database_url"
          (VStr (match DATABASE_URL with
                 | Some (String _ _) => "✅ Set"
                 | _ => "❌ Not Set"
                 end)) response in
      let response := dict_set "database_name" (VStr (db_name h)) response in
      let response := dict_set "connection_status" (VStr "Connected") response in
      match list_collection_names h with
      | inr names =>
          let response :=
            dict_set "collections" (VList (map VStr (firstn 10 names))) response in
          dict_set "database" (VStr "✅ Connected & Working") response
      | inl msg =>
          dict_set "database"
            (VStr ("⚠️ Connected but Error: " ++ take_chars 80 msg)) response
      end
  end.



Lemma take_chars_all s : forall n,
  (char_count s <= n)%nat -> take_chars n s = s.
Proof.
  induction s as [| c r IH]; intros n L; simpl; trivial.
  simpl in L. destruct (is_continuation c).
  - rewrite IH; trivial.
  - destruct n as [| m]; [lia |]. rewrite IH; trivial. lia.
Qed.

(** The health report always has the same six fields, in the same order,
    and says the backend runs.  Without a database handle it is the default
    report, which calls [DATABASE_URL] not set even when it is set. *)
Theorem test_database_shape (db : option database) (DATABASE_URL : option string) :
  keys (test_database db DATABASE_URL) =
    ["backend"; "database"; "database_url"; "database_name";
     "connection_status"; "collections"] /\
  dict_get "backend" (test_database db DATABASE_URL) = Some (VStr "✅ Running") /\
  test_database None DATABASE_URL =
    [("backend", VStr "✅ Running");
     ("database", VStr "❌ Not Available");
     ("database_url", VStr "❌ Not Set");
     ("database_name", VStr "❌ Not Set");
     ("connection_status", VStr "Not Connected");
     ("collections", VList [])].
Proof.
  destruct db as [[n [msg | names]] |]; repeat split.
Qed.


(** ** Creating a user, then listing *)

Lemma list_users_all (regex_search : string -> string -> string -> bool)
    (db : store) :
  list_users regex_search None db
    = (Ok (map (fun d => serialize (Some d)) (users db)), db).
Proof.
  run_handler.
  assert (E : filter q_all (users db) = users db).
  { induction (users db) as [| d r IH]; simpl; [trivial | now rewrite IH]. }
  now rewrite E.
Qed.

(** After a user was created, the unfiltered listing of users holds the
    record the creation returned and the records listed before, and
    nothing else. *)
Theorem created_user_is_listed
    (regex_search : string -> string -> string -> bool)
    (e : env) (p : CreateUser) (db db' : store) (r : option dict)
    (old : list (option dict)) :
  create_user e p db = (Ok r, db') ->
  list_users regex_search None db = (Ok old, db) ->
  exists l,
    list_users regex_search None db' = (Ok l, db') /\
    Permutation l (r :: old).
Proof.
  intros H L.
  destruct (find_one (users db) (q_id (VOid (env_oid e)))) as [d |] eqn:N.
  { revert H. run_handler.
    rewrite (create_document_duplicate e user (dump_user p) db N). discriminate. }
  rewrite (create_user_accepts e p db N) in H.
  assert (Er : r = serialize (Some (new_document e (dump_user p))))
    by (inversion H; reflexivity).
  assert (Edb : users db' = (users db ++ [new_document e (dump_user p)])%list)
    by (inversion H; reflexivity).
  clear H. subst r.
  rewrite list_users_all in L. inversion L; subst old. clear L.
  eexists. split.
  - rewrite list_users_all, Edb, map_app. reflexivity.
  - apply Permutation_sym, Permutation_cons_append.
Qed.

Lemma created_user_is_listed_witness :
  exists l,
    list_users (fun _ _ _ => false) None
      (snd (create_user env_b user_ann store_one_user))
    = (Ok l, snd (create_user env_b user_ann store_one_user)) /\
    Permutation l
      [serialize (Some (new_document env_b (dump_user user_ann)));
       serialize (Some (new_document env_a (dump_user user_ann)))].
Proof.
  apply (@created_user_is_listed (fun _ _ _ => false) env_b user_ann
           store_one_user).
  - reflexivity.
  - reflexivity.
Defined.
